(** Verification of the procedural map generator [map_gen.py] of
    gym-duckietown: the exhaustive cycle strategy ([all_loops]), the
    connectivity mapper ([edge_path_to_grid]), the tile classifier
    ([graph_transform]), the object placer ([object_placement]) and the
    assembler ([gen_map]).

    Modelling conventions.
    - Python [int] is [Z]; a [for _ in range(n)] loop runs [Z.to_nat n] times.
    - Python [float] is an IEEE 754 binary64 number, Rocq's primitive
      [float]: [+], [-], [*] and [<] are the correctly rounded operations
      of the hardware, a literal such as 0.585 is the nearest binary64
      number, and [rand.random()] yields k * 2^-53 for a 53-bit k.  The
      power [x ** 2] is computed by the C library's [pow], which is
      accurate but not always correctly rounded; it is the one operation
      the model takes as a parameter ([pow2] of the class [Libm]).
    - Python exceptions are the constructors of [exn]; a function that can
      raise returns a [result].
    - The module-level [rand = Random()] is an explicit generator state that
      is threaded through every call that draws from it. *)

From Stdlib Require Import PrimFloat FloatOps SpecFloat.
From Stdlib Require Import ZArith QArith Lia String Ascii Bool.
From stdpp Require Import base list.

Set Warnings "-inexact-float".

Open Scope Z_scope.

(* ===================================================================== *)
(** * Python primitives *)
(* ===================================================================== *)

Inductive exn : Type :=
  | IndexError      (* list index out of range, choice from an empty sequence *)
  | ValueError      (* empty range for randrange *)
  | NetworkXError.  (* negative number of nodes for nx.grid_2d_graph *)

Inductive result (A : Type) : Type :=
  | Ok  (a : A)
  | Err (e : exn).
Arguments Ok {A} a.
Arguments Err {A} e.

Definition rbind {A B} (m : result A) (k : A -> result B) : result B :=
  match m with
  | Ok a => k a
  | Err e => Err e
  end.

Declare Scope py_scope.
Delimit Scope py_scope with py.
Notation "'let*' x ':=' m 'in' k" := (rbind m (fun x => k))
  (at level 10, x pattern, m at level 100, k at level 200) : py_scope.
Open Scope py_scope.

(** [l[i]] with Python's negative indices. *)
Definition py_index {A} (l : list A) (i : Z) : option nat :=
  let n := Z.of_nat (length l) in
  if (0 <=? i) && (i <? n) then Some (Z.to_nat i)
  else if (- n <=? i) && (i <? 0) then Some (Z.to_nat (n + i))
  else None.

Definition py_get {A} (l : list A) (i : Z) : result A :=
  match py_index l i with
  | Some k => match l !! k with Some a => Ok a | None => Err IndexError end
  | None => Err IndexError
  end.

(** [l[i] = v]. *)
Definition py_set {A} (l : list A) (i : Z) (v : A) : result (list A) :=
  match py_index l i with
  | Some k => Ok (<[k := v]> l)
  | None => Err IndexError
  end.

(** [l[y][x] = v]: the row object [l[y]] is fetched, then updated in place.
    The rows of every grid below are distinct objects, so only row [y]
    changes. *)
Definition py_set2 {A} (l : list (list A)) (y x : Z) (v : A)
  : result (list (list A)) :=
  let* row := py_get l y in
  let* row' := py_set row x v in
  py_set l y row'.

(** [range(n)]. *)
Definition range (n : Z) : list Z :=
  map Z.of_nat (seq 0 (Z.to_nat n)).

(** [[v] * n]. *)
Definition py_repeat {A} (v : A) (n : Z) : list A :=
  repeat v (Z.to_nat n).

(** A [for] loop whose body may raise: the state is threaded through the
    iterations and the first exception aborts the loop. *)
Fixpoint for_each {S A} (xs : list A) (body : A -> S -> result S) (s : S)
  : result S :=
  match xs with
  | [] => Ok s
  | x :: xs' => let* s' := body x s in for_each xs' body s'
  end.

(* ===================================================================== *)
(** * The random source *)
(* ===================================================================== *)

(** The generator state: the raw words the generator will deliver, and how
    many of them have been consumed.  Every finite sequence of outcomes of
    [random], [randrange] and [choice] is the behaviour of some tape. *)
Record Random : Type := mkRandom {
  tape   : nat -> N;
  cursor : nat
}.

Definition next_word (r : Random) : N * Random :=
  (tape r (cursor r), mkRandom (tape r) (S (cursor r))).

(** [float(z)] and the conversion of the int operand of [z * x]: the
    nearest binary64 number, ties to even.  (Beyond the range of the
    doubles, about 1.8e308, Python raises OverflowError where this gives
    infinity; no coordinate of a grid the program can build comes near.) *)
Definition float_of_int (z : Z) : float :=
  SF2Prim (binary_normalize prec emax z 0 false).

(** [rand.random()]: the float k * 2^-53 for a 53-bit k, in [0, 1); both
    the conversion of k and the scaling by a power of two are exact. *)
Definition random (r : Random) : float * Random :=
  let (v, r') := next_word r in
  ((float_of_int (Z.of_N (v mod 2 ^ 53)) * 0x1p-53)%float, r').

(** [rand._randbelow(n)] for n > 0. *)
Definition randbelow (n : Z) (r : Random) : Z * Random :=
  let (v, r') := next_word r in
  (Z.of_N v mod n, r').

(** [rand.randrange(start, stop)]. *)
Definition randrange (start stop : Z) (r : Random) : result (Z * Random) :=
  if 0 <? stop - start then
    let (k, r') := randbelow (stop - start) r in Ok (start + k, r')
  else Err ValueError.

(** [rand.choice(seq)]. *)
Definition choice {A} (l : list A) (r : Random) : result (A * Random) :=
  match l with
  | [] => Err IndexError
  | _ :: _ =>
      let (k, r') := randbelow (Z.of_nat (length l)) r in
      let* a := py_get l k in Ok (a, r')
  end.

(* ===================================================================== *)
(** * Grid cells and connectivity records *)
(* ===================================================================== *)

Definition cell : Type := Z * Z.

Definition cell_eqb (a b : cell) : bool :=
  (fst a =? fst b) && (snd a =? snd b).

(** [c in l] for a list of tuples. *)
Definition cell_in (c : cell) (l : list cell) : bool :=
  existsb (cell_eqb c) l.

(** A connectivity record (north, east, south, west). *)
Definition conn : Type := bool * bool * bool * bool.

Definition conn_eqb (a b : conn) : bool :=
  let '(an, ae, as_, aw) := a in
  let '(bn, be, bs, bw) := b in
  eqb an bn && eqb ae be && eqb as_ bs && eqb aw bw.

Definition no_conn : conn := (false, false, false, false).

(** [empty()]: [height] fresh rows of [width] all-false records. *)
Definition empty (width height : Z) : list (list conn) :=
  map (fun _ => py_repeat no_conn width) (range height).

(* ===================================================================== *)
(** * TileClassifier: graph_transform *)
(* ===================================================================== *)

(** The if/elif cascade of [graph_transform], branch for branch; [None] is
    the final [else], which stores the empty string and logs the cell. *)
Definition classify (c : conn) : option string :=
  if conn_eqb c (false, false, false, false) then Some "grass"%string
  else if conn_eqb c (false, true, false, true) then Some "straight/E"%string
  else if conn_eqb c (true, false, true, false) then Some "straight/S"%string
  else if conn_eqb c (true, true, false, false) then Some "curve_left/S"%string
  else if conn_eqb c (false, true, true, false) then Some "curve_left/W"%string
  else if conn_eqb c (false, false, true, true) then Some "curve_left/N"%string
  else if conn_eqb c (true, false, false, true) then Some "curve_left/E"%string
  else if conn_eqb c (true, true, true, false) then Some "3way_left/S"%string
  else if conn_eqb c (false, true, true, true) then Some "3way_left/W"%string
  else if conn_eqb c (true, false, true, true) then Some "3way_left/N"%string
  else if conn_eqb c (true, true, false, true) then Some "3way_left/E"%string
  else if conn_eqb c (true, true, false, true) then Some "4way/E"%string
  else None.

(** The state of the two nested loops: the tile map under construction and
    the cells reported through [logging.error]. *)
Record tiling : Type := mkTiling {
  tile_map : list (list string);
  unknown  : list (Z * Z)   (* (x, y) of every "Unknown tile" report *)
}.

Definition graph_transform_cell (conn_map : list (list conn)) (y x : Z)
  (t : tiling) : result tiling :=
  let* crow := py_get conn_map y in
  let* c := py_get crow x in
  match classify c with
  | Some name =>
      let* tm := py_set2 (tile_map t) y x name in
      Ok (mkTiling tm (unknown t))
  | None =>
      let* tm := py_set2 (tile_map t) y x EmptyString in
      Ok (mkTiling tm (unknown t ++ [(x, y)]))
  end.

Definition graph_transform (width height : Z) (conn_map : list (list conn))
  : result tiling :=
  let tile_map0 := map (fun _ => py_repeat "grass"%string width) (range height) in
  for_each (range height)
    (fun y t => for_each (range width) (graph_transform_cell conn_map y) t)
    (mkTiling tile_map0 []).

(* ===================================================================== *)
(** * ConnectivityMapper: edge_path_to_grid *)
(* ===================================================================== *)

(** The record stored for the cell (x, y): north, east, south, west. *)
Definition flags (x y : Z) (neighs : list cell) : conn :=
  (cell_in (x, y - 1) neighs, cell_in (x + 1, y) neighs,
   cell_in (x, y + 1) neighs, cell_in (x - 1, y) neighs).

(** One iteration of the loop of [edge_path_to_grid]. *)
Definition edge_path_step (edges : list cell) (c_len : Z) (i : Z)
  (cycle_map : list (list conn)) : result (list (list conn)) :=
  let* p := py_get edges (i - 1) in
  let* s := py_get edges ((i + 1) mod c_len) in
  let neighs := [p; s] in
  let* (x, y) := py_get edges i in
  py_set2 cycle_map y x (flags x y neighs).

Definition edge_path_to_grid (width height : Z) (edges : list cell)
  : result (list (list conn)) :=
  let c_len := Z.of_nat (length edges) in
  for_each (range c_len) (edge_path_step edges c_len) (empty width height).

(* ===================================================================== *)
(** * GridCycleGenerator, exhaustive strategy: all_loops *)
(* ===================================================================== *)

Definition in_grid (width height : Z) (c : cell) : bool :=
  (0 <=? fst c) && (fst c <? width) && (0 <=? snd c) && (snd c <? height).

(** [nx.grid_2d_graph(width, height, create_using=nx.DiGraph)]: the nodes
    are the pairs (i, j) with i in range(width) and j in range(height), and
    every pair of 4-adjacent nodes is joined by an edge in each direction. *)
Definition grid_nodes (width height : Z) : list cell :=
  flat_map (fun i => map (fun j => (i, j)) (range height)) (range width).

Definition grid_succ (width height : Z) (c : cell) : list cell :=
  let '(x, y) := c in
  List.filter (in_grid width height)
    [(x + 1, y); (x - 1, y); (x, y + 1); (x, y - 1)].

(** A directed graph: its nodes and the successors of a node. *)
Record DiGraph : Type := mkDiGraph {
  graph_nodes : list cell;
  graph_succ  : cell -> list cell
}.

Definition grid_graph (width height : Z) : DiGraph :=
  mkDiGraph (grid_nodes width height) (grid_succ width height).

(** The call itself: the decorator of [grid_2d_graph] turns each size
    into [range(size)] and raises NetworkXError for a negative one. *)
Definition grid_2d_graph (width height : Z) : result DiGraph :=
  if (width <? 0) || (height <? 0) then Err NetworkXError
  else Ok (grid_graph width height).

(** [nx.simple_cycles]: every simple directed cycle once, up to rotation.
    The cycles through [s] that avoid the nodes enumerated before [s] are
    found by extending a simple path from [s] until an edge leads back to
    [s].  The library fixes neither the order of the enumeration nor the
    rotation of a cycle; nothing below depends on either. *)
Fixpoint cycles_from (fuel : nat) (succ : cell -> list cell)
  (allowed : list cell) (s : cell) (path : list cell) (cur : cell)
  : list (list cell) :=
  match fuel with
  | O => []
  | S f =>
      flat_map (fun nb =>
        if cell_eqb nb s then [path]
        else if cell_in nb allowed && negb (cell_in nb path)
             then cycles_from f succ allowed s (path ++ [nb]) nb
             else [])
        (succ cur)
  end.

Fixpoint cycles_of (fuel : nat) (succ : cell -> list cell)
  (nodes : list cell) : list (list cell) :=
  match nodes with
  | [] => []
  | s :: rest =>
      cycles_from fuel succ rest s [s] s ++ cycles_of fuel succ rest
  end.

Definition simple_cycles (G : DiGraph) : list (list cell) :=
  cycles_of (length (graph_nodes G)) (graph_succ G) (graph_nodes G).

Definition all_loops (width height : Z) : result (list (list cell)) :=
  let* grid := grid_2d_graph width height in
  Ok (simple_cycles grid).

(* ===================================================================== *)
(** * ObjectPlacer: object_placement *)
(* ===================================================================== *)

Definition TILE_SIZE : float := 0.585%float.

(** [x ** 2] on a float is the C library's [pow(x, 2.0)].  Its result is
    within one unit in the last place of the square but need not be the
    correctly rounded one, and differs between libraries; the model is
    parametric in it.  (Where the square overflows, for a difference
    beyond 1.3e154, Python raises OverflowError; no coordinate of a grid
    the program can build comes near.) *)
Class Libm : Type := {
  pow2 : float -> float
}.

(** A library whose [pow(x, 2.0)] is the correctly rounded square, for
    worked examples. *)
Definition rounded_square : Libm := {| pow2 := fun x => (x * x)%float |}.

(** [a > b] on floats. *)
Definition float_gt (a b : float) : bool := PrimFloat.ltb b a.

(** The lambda of the distance check:
    [(x-o[0])**2 + (y-o[1])**2 > min_dist_sq]. *)
Definition clear_of {L : Libm} (min_dist_sq x y : float) (o : float * float)
  : bool :=
  float_gt (pow2 (x - fst o) + pow2 (y - snd o))%float min_dist_sq.

(** The draws of one attempt and the candidate position they give. *)
Definition candidate (possible_tiles : list cell) (r : Random)
  : result ((float * float) * Random) :=
  let (u, r1) := random r in
  let xoff := (u * TILE_SIZE)%float in
  let (v, r2) := random r1 in
  let yoff := (v * TILE_SIZE)%float in
  let* ((startX, startY), r3) := choice possible_tiles r2 in
  Ok ((float_of_int startX * TILE_SIZE + xoff,
       float_of_int startY * TILE_SIZE + yoff)%float, r3).

(** The inner loop, [tries] attempts left: the first candidate that passes
    the check is appended and the loop is left by [break]; when the range
    is exhausted nothing is appended. *)
Fixpoint attempts {L : Libm} (tries : nat) (min_dist_sq : float)
  (possible_tiles : list cell) (ducks : list (float * float)) (r : Random)
  : result (list (float * float) * Random) :=
  match tries with
  | O => Ok (ducks, r)
  | S tries' =>
      let* ((x, y), r') := candidate possible_tiles r in
      if forallb (clear_of min_dist_sq x y) ducks
      then Ok (ducks ++ [(x, y)], r')
      else attempts tries' min_dist_sq possible_tiles ducks r'
  end.

Definition MAX_TRIES : nat := 50.

(** The outer loop, [n] objects left. *)
Fixpoint place {L : Libm} (n : nat) (min_dist_sq : float)
  (possible_tiles : list cell) (ducks : list (float * float)) (r : Random)
  : result (list (float * float) * Random) :=
  match n with
  | O => Ok (ducks, r)
  | S n' =>
      let* (ducks', r') :=
        attempts MAX_TRIES min_dist_sq possible_tiles ducks r in
      place n' min_dist_sq possible_tiles ducks' r'
  end.

Definition object_placement {L : Libm} (n : Z) (min_dist : float)
  (possible_tiles : list cell) (r : Random)
  : result (list (float * float) * Random) :=
  place (Z.to_nat n) (min_dist * min_dist)%float possible_tiles [] r.

(* ===================================================================== *)
(** * MapAssembler: gen_map *)
(* ===================================================================== *)

(** One object record; the fields are the keys of the dictionary. *)
Record MapObject : Type := mkObject {
  obj_height   : float;
  obj_kind     : string;
  obj_optional : bool;
  obj_pos      : list float;
  obj_rotate   : Z;
  obj_static   : bool
}.

Record MapData : Type := mkMap {
  tile_size : float;
  tiles     : list (list string);
  objects   : list MapObject
}.

(** [list(map(lambda x: {...}, positions))]: the lambda runs once per
    position, in order, and draws the rotation. *)
Fixpoint make_objects (positions : list (float * float)) (r : Random)
  : result (list MapObject * Random) :=
  match positions with
  | [] => Ok ([], r)
  | x :: rest =>
      let* (rot, r1) := randrange 0 360 r in
      let* (objs, r2) := make_objects rest r1 in
      Ok (mkObject 0.06%float "duckie" false [fst x; snd x] rot true :: objs,
          r2)
  end.

(** What a run of [gen_map] leaves behind: the map, the cells reported as
    unknown tiles, and the state of the generator. *)
Record generated : Type := mkGenerated {
  map_dict : MapData;
  reports  : list (Z * Z);
  rand_out : Random
}.

(** The minimum distance that [gen_map] passes is the int 10; its square
    is the int 100, which Python compares with a float as it compares
    the float 100.0. *)
Definition gen_map {L : Libm} (width height : Z) (rand : Random)
  : result generated :=
  let* loops := all_loops width height in
  let* (edges, r1) := choice loops rand in
  let* grid := edge_path_to_grid width height edges in
  let* t := graph_transform width height grid in
  let* (ducks, r2) := object_placement 5 (float_of_int 10) edges r1 in
  let* (objs, r3) := make_objects ducks r2 in
  Ok (mkGenerated (mkMap TILE_SIZE (tile_map t) objs) (unknown t) r3).

(** The command line.  [width] and [height] are the values the defaults
    give, ints; a size typed on the command line arrives as a str, which
    this record does not cover. *)
Record Args : Type := mkArgs {
  force     : bool;
  width     : Z;
  height    : Z;
  seed      : option string;
  file_name : string
}.

(** The script: [rand = Random()] is seeded by the operating system, then
    [gen_map()] runs on the parsed arguments. *)
Definition run {L : Libm} (args : Args) (os_entropy : nat -> N)
  : result generated :=
  let rand := mkRandom os_entropy 0 in
  gen_map (width args) (height args) rand.

(* ===================================================================== *)
(** * Specification vocabulary *)
(* ===================================================================== *)

(** 4-adjacency of grid cells. *)
Definition adjacentb (a b : cell) : bool :=
  Z.abs (fst a - fst b) + Z.abs (snd a - snd b) =? 1.

Fixpoint nodupb (l : list cell) : bool :=
  match l with
  | [] => true
  | c :: l' => negb (cell_in c l') && nodupb l'
  end.

(** The cell at index [k] of a cycle. *)
Definition cell_at (l : list cell) (k : Z) : cell :=
  nth (Z.to_nat k) l (0, 0).

(** Every cell is adjacent to its successor, the last one to the first. *)
Definition cyclic_adjacentb (l : list cell) : bool :=
  let len := Z.of_nat (length l) in
  forallb (fun i => adjacentb (cell_at l i) (cell_at l ((i + 1) mod len)))
          (range len).

(** A valid Cycle of the width x height grid: at least four cells, no cell
    twice, cyclically 4-adjacent, all cells within the grid. *)
Definition is_valid_cycle (width height : Z) (edges : list cell) : bool :=
  (4 <=? Z.of_nat (length edges)) && nodupb edges &&
  cyclic_adjacentb edges && forallb (in_grid width height) edges.

(** The entry of a grid at a cell with non-negative coordinates. *)
Definition grid_at {A} (g : list (list A)) (c : cell) : option A :=
  match g !! Z.to_nat (snd c) with
  | Some row => row !! Z.to_nat (fst c)
  | None => None
  end.

(** A grid of [height] rows of [width] entries. *)
Definition grid_dims {A} (width height : Z) (g : list (list A)) : Prop :=
  length g = Z.to_nat height /\
  Forall (fun row => length row = Z.to_nat width) g.

Definition count_true (r : conn) : nat :=
  let '(n, e, s, w) := r in
  (Nat.b2n n + Nat.b2n e + Nat.b2n s + Nat.b2n w)%nat.

(** The cells a record of the cell [c] points at. *)
Definition flagged (r : conn) (c : cell) : list cell :=
  let '(n, e, s, w) := r in
  let '(x, y) := c in
  (if n then [(x, y - 1)] else []) ++ (if e then [(x + 1, y)] else []) ++
  (if s then [(x, y + 1)] else []) ++ (if w then [(x - 1, y)] else []).

(** The record [edge_path_to_grid] computes for the cell at index [i]. *)
Definition flags_of (edges : list cell) (i : Z) : conn :=
  let len := Z.of_nat (length edges) in
  let '(x, y) := cell_at edges i in
  flags x y [cell_at edges ((i - 1) mod len); cell_at edges ((i + 1) mod len)].

(** The identifiers of the tile assets. *)
Definition tile_names : list string :=
  ["grass"; "straight/E"; "straight/S"; "curve_left/S"; "curve_left/W";
   "curve_left/N"; "curve_left/E"; "3way_left/S"; "3way_left/W";
   "3way_left/N"; "3way_left/E"; "4way/E"]%string.

(** A tile map of the right size that holds asset identifiers only, with
    no unknown tile reported. *)
Definition tiling_ok (width height : Z) (t : tiling) : Prop :=
  grid_dims width height (tile_map t) /\
  unknown t = [] /\
  Forall (Forall (fun s => s ∈ tile_names /\ s <> EmptyString)) (tile_map t).

(** Every cell of a path is adjacent to the next one. *)
Definition chain (l : list cell) : Prop :=
  forall i, 0 <= i -> i + 1 < Z.of_nat (length l) ->
            adjacentb (cell_at l i) (cell_at l (i + 1)) = true.

(** Every position of the list passed the test of the code against
    every position before it: the squared distance, as the code computes
    it in floating point, exceeds [d2]. *)
Definition checked {L : Libm} (d2 : float) (ducks : list (float * float))
  : Prop :=
  forall (i j : nat) (p q : float * float),
    (i < j)%nat -> ducks !! i = Some p -> ducks !! j = Some q ->
    clear_of d2 (fst q) (snd q) p = true.

(** The rational number a finite float stands for. *)
Definition exact (f : float) : Q :=
  match Prim2SF f with
  | S754_finite s m e =>
      let v := if s then Z.neg m else Z.pos m in
      if 0 <=? e then inject_Z (v * 2 ^ e)
      else (v # (2 ^ Z.to_pos (- e)))%Q
  | _ => 0%Q
  end.

(** The squared Euclidean distance of two positions, in exact
    arithmetic. *)
Definition exact_dist_sq (p q : float * float) : Q :=
  ((exact (fst p) - exact (fst q)) ^ 2 +
   (exact (snd p) - exact (snd q)) ^ 2)%Q.

(** The generator after [i] further draws. *)
Definition advance (r : Random) (i : nat) : Random :=
  mkRandom (tape r) (cursor r + i).

(** The candidates of [k] consecutive attempts, whatever the outcome of the
    distance check, and the generator after them. *)
Fixpoint candidates (k : nat) (possible_tiles : list cell) (r : Random)
  : result (list (float * float) * Random) :=
  match k with
  | O => Ok ([], r)
  | S k' =>
      let* (p, r1) := candidate possible_tiles r in
      let* (ps, r2) := candidates k' possible_tiles r1 in
      Ok (p :: ps, r2)
  end.

(** The candidate fails the distance check against [ducks]. *)
Definition rejected {L : Libm} (min_dist_sq : float)
  (ducks : list (float * float)) (p : float * float) : bool :=
  negb (forallb (clear_of min_dist_sq (fst p) (snd p)) ducks).

(** What every assembled object record looks like. *)
Definition object_ok (o : MapObject) : Prop :=
  0 <= obj_rotate o <= 359 /\ obj_rotate o <> 360 /\
  obj_height o = 0.06%float /\ obj_kind o = "duckie"%string /\
  obj_static o = true.

(** A tape for worked examples. *)
Definition tape_a : nat -> N := fun i => N.of_nat (7 * i + 3).
Definition tape_b : nat -> N := fun i => N.of_nat (5 * i + 1).

(** A tape on which two positions closer than the minimum distance are
    accepted: the draws of the first object, then those of the second. *)
Definition tape_close : nat -> N := fun i =>
  match i with
  | 0%nat => 177057686855692%N    (* xoff of the first candidate *)
  | 1%nat => 7733018271621523%N   (* yoff *)
  | 2%nat => 1%N                  (* cell (1, 0) *)
  | 3%nat => 4667999848681446%N   (* xoff of the second candidate *)
  | 4%nat => 5954687293250399%N   (* yoff *)
  | 5%nat => 2%N                  (* cell (1, 1) *)
  | _ => 0%N
  end.

(* ===================================================================== *)
(** * Vocabulary for the remaining functions *)
(* ===================================================================== *)


(** The string [graph_transform] stores for a record. *)
Definition tile_of (c : conn) : string :=
  match classify c with
  | Some name => name
  | None => EmptyString
  end.



(** [full()]: every cell connected to its neighbours in the grid. *)
Definition full (width height : Z) : list (list conn) :=
  map (fun i =>
         [(negb (i =? 0), true, negb (i =? height - 1), false)] ++
         py_repeat (negb (i =? 0), true, negb (i =? height - 1), true)
                   (width - 2) ++
         [(negb (i =? 0), false, negb (i =? height - 1), true)])
      (range height).




(* ===================================================================== *)
(** * The boolean-map classifier: neighs, is_set, check, map_transform *)
(* ===================================================================== *)

(** [neighs(x, y)]. *)
Definition neighs (x y : Z) : list cell :=
  [(x + 1, y); (x - 1, y); (x, y + 1); (x, y - 1)].


(** [check(bool_map, x, y, n, e, s, w)]: a neighbour outside the grid
    counts as 0, a boolean is compared with 0 or 1 as Python compares
    [False] and [True] with integers. *)
Definition check (width height : Z) (bool_map : list (list bool))
  (x y : Z) (n e s w : Z) : result bool :=
  let* ee := if x + 1 <? width
             then (let* row := py_get bool_map y in
                   let* b := py_get row (x + 1) in Ok (Z.b2z b))
             else Ok 0 in
  let* ww := if 0 <=? x - 1
             then (let* row := py_get bool_map y in
                   let* b := py_get row (x - 1) in Ok (Z.b2z b))
             else Ok 0 in
  let* ss := if y + 1 <? height
             then (let* row := py_get bool_map (y + 1) in
                   let* b := py_get row x in Ok (Z.b2z b))
             else Ok 0 in
  let* nn := if 0 <=? y - 1
             then (let* row := py_get bool_map (y - 1) in
                   let* b := py_get row x in Ok (Z.b2z b))
             else Ok 0 in
  Ok ((ee =? e) && (ww =? w) && (nn =? n) && (ss =? s)).

(** The if/elif cascade of [map_transform], in order: the arguments
    (n, e, s, w) of each [check] and the tile it selects. *)
Definition map_patterns : list ((Z * Z * Z * Z) * string) :=
  [((0, 1, 0, 1), "straight/E"); ((1, 0, 1, 0), "straight/S");
   ((1, 1, 0, 0), "curve_left/S"); ((0, 1, 1, 0), "curve_left/W");
   ((0, 0, 1, 1), "curve_left/N"); ((1, 0, 0, 1), "curve_left/E");
   ((1, 1, 1, 0), "3way_left/S"); ((0, 1, 1, 1), "3way_left/W");
   ((1, 0, 1, 1), "3way_left/N"); ((1, 1, 0, 1), "3way_left/E");
   ((1, 1, 0, 1), "4way/E")]%string.

(** The first branch of the cascade whose [check] holds; [None] is the
    final [else]. *)
Fixpoint first_check (width height : Z) (bool_map : list (list bool))
  (x y : Z) (patterns : list ((Z * Z * Z * Z) * string))
  : result (option string) :=
  match patterns with
  | [] => Ok None
  | ((n, e, s, w), name) :: rest =>
      let* c := check width height bool_map x y n e s w in
      if c then Ok (Some name)
      else first_check width height bool_map x y rest
  end.

Definition map_transform_cell (width height : Z)
  (bool_map : list (list bool)) (y x : Z) (t : tiling) : result tiling :=
  let* row := py_get bool_map y in
  let* b := py_get row x in
  if b then
    let* m := first_check width height bool_map x y map_patterns in
    match m with
    | Some name =>
        let* tm := py_set2 (tile_map t) y x name in
        Ok (mkTiling tm (unknown t))
    | None =>
        let* tm := py_set2 (tile_map t) y x EmptyString in
        Ok (mkTiling tm (unknown t ++ [(x, y)]))
    end
  else Ok t.

Definition map_transform (width height : Z) (bool_map : list (list bool))
  : result tiling :=
  let tile_map0 := map (fun _ => py_repeat "grass"%string width) (range height) in
  for_each (range height)
    (fun y t => for_each (range width)
                  (map_transform_cell width height bool_map y) t)
    (mkTiling tile_map0 []).









(* ===================================================================== *)
(** * Basic facts about the primitives *)
(* ===================================================================== *)

Lemma rbind_Ok {A B} (m : result A) (k : A -> result B) (b : B) :
  rbind m k = Ok b -> exists a, m = Ok a /\ k a = Ok b.
Proof. destruct m as [a|e]; simpl; [eauto | discriminate]. Qed.

(** Splits a hypothesis [let* x := m in k = Ok b] into its two halves. *)
Tactic Notation "bind_inv" hyp(H) :=
  let a := fresh "a" in
  let Ha := fresh "Hbind" in
  apply rbind_Ok in H; destruct H as (a & Ha & H).

Tactic Notation "bind_inv" hyp(H) "as" simple_intropattern(a) ident(Ha) :=
  apply rbind_Ok in H; destruct H as (a & Ha & H).

Lemma py_index_lt {A} (l : list A) (i : Z) (k : nat) :
  py_index l i = Some k -> (k < length l)%nat.
Proof.
  unfold py_index.
  destruct ((0 <=? i) && (i <? Z.of_nat (length l))) eqn:E1.
  - intros [= <-]. apply andb_prop in E1 as [? ?]. lia.
  - destruct ((- Z.of_nat (length l) <=? i) && (i <? 0)) eqn:E2; [|discriminate].
    intros [= <-]. apply andb_prop in E2 as [? ?]. lia.
Qed.

Lemma py_index_nonneg {A} (l : list A) (i : Z) :
  0 <= i < Z.of_nat (length l) -> py_index l i = Some (Z.to_nat i).
Proof.
  intros H. unfold py_index.
  replace ((0 <=? i) && (i <? Z.of_nat (length l))) with true; [done|].
  symmetry. apply andb_true_intro. split; lia.
Qed.

Lemma py_get_elem {A} (l : list A) (i : Z) (a : A) :
  py_get l i = Ok a -> a ∈ l.
Proof.
  unfold py_get. destruct (py_index l i) as [k|]; [|discriminate].
  destruct (l !! k) eqn:E; [|discriminate].
  intros [= <-]. eapply list_elem_of_lookup_2; eauto.
Qed.

Lemma py_get_nonneg {A} (l : list A) (i : Z) :
  0 <= i < Z.of_nat (length l) ->
  py_get l i = match l !! Z.to_nat i with Some a => Ok a | None => Err IndexError end.
Proof. intros H. unfold py_get. by rewrite py_index_nonneg. Qed.

Lemma py_set_Forall {A} (P : A -> Prop) (l l' : list A) (i : Z) (v : A) :
  Forall P l -> P v -> py_set l i v = Ok l' -> Forall P l'.
Proof.
  unfold py_set. destruct (py_index l i) as [k|] eqn:E; [|discriminate].
  intros Hl Hv [= <-]. apply Forall_insert; auto.
Qed.

Lemma py_set2_Forall {A} (P : A -> Prop) (l l' : list (list A)) (y x : Z)
  (v : A) :
  Forall (Forall P) l -> P v -> py_set2 l y x v = Ok l' -> Forall (Forall P) l'.
Proof.
  intros Hl Hv H. unfold py_set2 in H.
  bind_inv H as row Hrow. bind_inv H as row' Hset.
  eapply py_set_Forall; [exact Hl| |exact H].
  eapply py_set_Forall; [|exact Hv|exact Hset].
  apply py_get_elem in Hrow. rewrite Forall_forall in Hl. auto.
Qed.

Lemma py_set_length {A} (l l' : list A) (i : Z) (v : A) :
  py_set l i v = Ok l' -> length l' = length l.
Proof.
  unfold py_set. destruct (py_index l i); [|discriminate].
  intros [= <-]. apply length_insert.
Qed.

Lemma for_each_inv {S A} (I : S -> Prop) (xs : list A)
  (body : A -> S -> result S) :
  (forall x s s', x ∈ xs -> I s -> body x s = Ok s' -> I s') ->
  forall s s', I s -> for_each xs body s = Ok s' -> I s'.
Proof.
  induction xs as [|x xs IH]; intros Hbody s s' Hs H; simpl in H.
  - by injection H as <-.
  - bind_inv H. eapply IH; [| |exact H].
    + intros; eapply Hbody; eauto. by right.
    + eapply Hbody; eauto. by left.
Qed.

Lemma range_elem (n k : Z) : k ∈ range n <-> 0 <= k < n.
Proof.
  unfold range. rewrite list_elem_of_fmap. split.
  - intros (j & -> & Hj). apply elem_of_seq in Hj. lia.
  - intros H. exists (Z.to_nat k). split; [lia|]. apply elem_of_seq. lia.
Qed.

Lemma range_length (n : Z) : length (range n) = Z.to_nat n.
Proof. unfold range. by rewrite length_map, length_seq. Qed.

Lemma py_repeat_length {A} (v : A) (n : Z) :
  length (py_repeat v n) = Z.to_nat n.
Proof. apply repeat_length. Qed.

Lemma randbelow_range (n : Z) (r : Random) :
  0 < n -> 0 <= fst (randbelow n r) < n.
Proof. intros H. unfold randbelow; simpl. apply Z.mod_pos_bound; lia. Qed.

Lemma randrange_range (a b k : Z) (r r' : Random) :
  randrange a b r = Ok (k, r') -> a <= k < b.
Proof.
  unfold randrange. destruct (0 <? b - a) eqn:E; [|discriminate].
  pose proof (randbelow_range (b - a) r) as Hr.
  destruct (randbelow (b - a) r) as [j r1]; simpl in Hr.
  intros [= <- <-]. lia.
Qed.


(** On a non-empty sequence [choice] never raises. *)
Lemma choice_total {A} (l : list A) (r : Random) :
  l <> [] -> exists a r', choice l r = Ok (a, r').
Proof.
  intros Hl. unfold choice. destruct l as [|x l]; [done|].
  pose proof (randbelow_range (Z.of_nat (length (x :: l))) r) as Hr.
  destruct (randbelow _ r) as [k r1]; simpl fst in Hr.
  assert (Hk : 0 <= k < Z.of_nat (length (x :: l))) by (apply Hr; simpl; lia).
  rewrite py_get_nonneg by done.
  destruct ((x :: l) !! Z.to_nat k) eqn:E.
  - simpl. eauto.
  - apply lookup_ge_None in E. lia.
Qed.

(* ===================================================================== *)
(** * The tile classifier *)
(* ===================================================================== *)

Definition tile_ok (P : string -> Prop) (t : tiling) : Prop :=
  Forall (Forall P) (tile_map t).

Lemma graph_transform_cell_tiles (P : string -> Prop) conn_map y x t t' :
  (forall c name, classify c = Some name -> P name) ->
  P EmptyString ->
  tile_ok P t -> graph_transform_cell conn_map y x t = Ok t' -> tile_ok P t'.
Proof.
  intros Hc He Ht H. unfold graph_transform_cell in H.
  bind_inv H as crow Hcrow. bind_inv H as c Hcell.
  destruct (classify c) as [name|] eqn:Ec.
  - bind_inv H as tm Hset. injection H as <-. unfold tile_ok; simpl.
    eapply py_set2_Forall; [exact Ht| |exact Hset]. eauto.
  - bind_inv H as tm Hset. injection H as <-. unfold tile_ok; simpl.
    eapply py_set2_Forall; [exact Ht| |exact Hset]. done.
Qed.

Lemma graph_transform_tiles (P : string -> Prop) width height conn_map t :
  (forall c name, classify c = Some name -> P name) ->
  P EmptyString -> P "grass"%string ->
  graph_transform width height conn_map = Ok t -> tile_ok P t.
Proof.
  intros Hc He Hg H. unfold graph_transform in H.
  eapply (for_each_inv (tile_ok P)); [| |exact H].
  - intros y s s' _ Hs Hrow.
    eapply (for_each_inv (tile_ok P)); [| exact Hs |exact Hrow].
    intros x s1 s2 _ Hs1. by apply graph_transform_cell_tiles.
  - unfold tile_ok; simpl. apply Forall_forall. intros row Hrow.
    apply list_elem_of_fmap in Hrow as (? & -> & _).
    apply Forall_forall. intros s Hs. unfold py_repeat in Hs.
    apply list_elem_of_In, repeat_spec in Hs. by subst.
Qed.

Lemma classify_not_4way (c : conn) : classify c <> Some "4way/E"%string.
Proof. destruct c as [[[[] []] []] []]; vm_compute; discriminate. Qed.

(** C5: whatever the connectivity grid, no cell of the tile map produced by
    [graph_transform] is "4way/E": no record is classified as "4way/E", and
    the record (True, True, False, True) tested by the 4-way branch is
    taken by the earlier "3way_left/E" branch. *)
Theorem graph_transform_never_4way :
  forall (width height : Z) (conn_map : list (list conn)),
    (forall c, classify c <> Some "4way/E"%string) /\
    classify (true, true, false, true) = Some "3way_left/E"%string /\
    match graph_transform width height conn_map with
    | Ok t => forall row, row ∈ tile_map t -> "4way/E"%string ∉ row
    | Err _ => True
    end.
Proof.
  intros width height conn_map. split; [exact classify_not_4way|].
  split; [reflexivity|].
  destruct (graph_transform width height conn_map) as [t|e] eqn:E; [|done].
  apply (graph_transform_tiles (fun s => s <> "4way/E"%string)) in E.
  - intros row Hrow Hin. unfold tile_ok in E.
    rewrite Forall_forall in E. specialize (E row Hrow).
    rewrite Forall_forall in E. by apply (E _ Hin).
  - intros c name Hc ->. by apply (classify_not_4way c).
  - discriminate.
  - discriminate.
Qed.

(** The classifier does run to completion on a grid of the right size, here
    a 2 x 2 grid holding a junction record. *)
Example graph_transform_junction :
  graph_transform 2 2
    [[(true, true, false, true); no_conn]; [no_conn; no_conn]]
  = Ok (mkTiling [["3way_left/E"; "grass"]; ["grass"; "grass"]]%string []).
Proof. reflexivity. Qed.

(* ===================================================================== *)
(** * The assembler's object records *)
(* ===================================================================== *)

Lemma make_objects_ok positions r objs r' :
  make_objects positions r = Ok (objs, r') -> Forall object_ok objs.
Proof.
  revert r objs r'. induction positions as [|x rest IH]; intros r objs r' H.
  - injection H as <- <-. constructor.
  - cbn [make_objects] in H.
    bind_inv H as [rot r1] Hrot. bind_inv H as [os r2] Hrest.
    injection H as <- <-. constructor; [|eauto].
    apply randrange_range in Hrot. unfold object_ok; simpl.
    repeat split; lia.
Qed.

Lemma advance_0 (r : Random) : advance r 0 = r.
Proof. destruct r as [t c]. unfold advance. simpl. f_equal. lia. Qed.

Lemma advance_advance (r : Random) (i j : nat) :
  advance (advance r i) j = advance r (i + j).
Proof. unfold advance. simpl. f_equal. lia. Qed.

(** A call of [randrange] consumes one word of the generator. *)
Lemma randrange_advance (a b k : Z) (r r' : Random) :
  randrange a b r = Ok (k, r') -> r' = advance r 1.
Proof.
  unfold randrange, randbelow, next_word, advance.
  destruct (0 <? b - a); [|done]. intros [= _ <-]. f_equal. lia.
Qed.

(** The records are built in the order of the positions: record [i] holds
    position [i] and the integer that the [i]-th call of
    [randrange(0, 360)] returns. *)
Lemma make_objects_spec positions r objs r' :
  make_objects positions r = Ok (objs, r') ->
  length objs = length positions /\
  r' = advance r (length positions) /\
  forall (i : nat) (p : float * float),
    positions !! i = Some p ->
    exists rot r'',
      randrange 0 360 (advance r i) = Ok (rot, r'') /\
      objs !! i
      = Some (mkObject 0.06%float "duckie" false [fst p; snd p] rot true).
Proof.
  revert r objs r'. induction positions as [|x rest IH]; intros r objs r' H.
  - injection H as <- <-. split; [done|]. split; [by rewrite advance_0|].
    intros i p Hi. by rewrite lookup_nil in Hi.
  - cbn [make_objects] in H.
    bind_inv H as [rot r1] Hrot. bind_inv H as [os r2] Hrest.
    injection H as <- <-.
    pose proof (randrange_advance _ _ _ _ _ Hrot) as ->.
    destruct (IH _ _ _ Hrest) as (Hlen & -> & Hall).
    split; [simpl; by rewrite Hlen|].
    split; [by rewrite advance_advance|].
    intros [|i] p Hi.
    + injection Hi as <-. exists rot, (advance r 1).
      rewrite advance_0. done.
    + simpl in Hi. destruct (Hall i p Hi) as (rot' & r'' & Hr & Ho).
      exists rot', r''. rewrite advance_advance in Hr. done.
Qed.

(** C10: every object record of the map assembled by [gen_map] has a
    rotation between 0 and 359 (never 360), height 0.06, kind "duckie" and
    static true; and the rotation is a draw of [randrange(0, 360)]: the
    records follow the positions that [object_placement] returned, one
    record per position and in their order, and record [i] holds position
    [i], the fixed attributes and the integer returned by the [i]-th call
    of [randrange(0, 360)] made after the placement. *)
Theorem gen_map_object_records :
  forall (L : Libm) (width height : Z) (rand : Random) (g : generated),
    gen_map width height rand = Ok g ->
    Forall object_ok (objects (map_dict g)) /\
    exists (loops : list (list cell)) (edges : list cell) (r1 : Random)
           (ducks : list (float * float)) (r2 : Random),
      all_loops width height = Ok loops /\
      choice loops rand = Ok (edges, r1) /\
      object_placement 5 (float_of_int 10) edges r1 = Ok (ducks, r2) /\
      length (objects (map_dict g)) = length ducks /\
      rand_out g = advance r2 (length ducks) /\
      forall (i : nat) (p : float * float),
        ducks !! i = Some p ->
        exists (rot : Z) (r' : Random),
          randrange 0 360 (advance r2 i) = Ok (rot, r') /\
          0 <= rot <= 359 /\
          objects (map_dict g) !! i
          = Some (mkObject 0.06%float "duckie" false [fst p; snd p] rot true).
Proof.
  intros L width height rand g H. unfold gen_map in H.
  bind_inv H as loops Hl.
  bind_inv H as [edges r1] Hc. bind_inv H as grid Hgrid.
  bind_inv H as t Ht. bind_inv H as [ducks r2] Hd.
  bind_inv H as [objs r3] Ho. injection H as <-. cbn [map_dict objects rand_out].
  split; [eapply make_objects_ok; eauto|].
  destruct (make_objects_spec _ _ _ _ Ho) as (Hlen & -> & Hall).
  exists loops, edges, r1, ducks, r2.
  repeat (split; [done|]).
  intros i p Hi. destruct (Hall i p Hi) as (rot & r' & Hr & Hobj).
  exists rot, r'. split; [done|]. split; [|done].
  apply randrange_range in Hr. lia.
Qed.

Lemma gen_map_object_records_witness :
  exists g, gen_map (L := rounded_square) 2 2 (mkRandom tape_a 0) = Ok g /\
    length (objects (map_dict g)) = 1%nat /\
    Forall object_ok (objects (map_dict g)) /\
    exists (loops : list (list cell)) (edges : list cell) (r1 : Random)
           (ducks : list (float * float)) (r2 : Random),
      all_loops 2 2 = Ok loops /\
      choice loops (mkRandom tape_a 0) = Ok (edges, r1) /\
      object_placement (L := rounded_square) 5 (float_of_int 10) edges r1
      = Ok (ducks, r2) /\
      length (objects (map_dict g)) = length ducks /\
      rand_out g = advance r2 (length ducks) /\
      forall (i : nat) (p : float * float),
        ducks !! i = Some p ->
        exists (rot : Z) (r' : Random),
          randrange 0 360 (advance r2 i) = Ok (rot, r') /\
          0 <= rot <= 359 /\
          objects (map_dict g) !! i
          = Some (mkObject 0.06%float "duckie" false [fst p; snd p] rot true).
Proof.
  eexists. split; [vm_compute; reflexivity|]. split; [reflexivity|].
  apply (gen_map_object_records rounded_square 2 2 (mkRandom tape_a 0)).
  vm_compute; reflexivity.
Defined.

(* ===================================================================== *)
(** * The object placer *)
(* ===================================================================== *)

Section placer.

(** The C library, the squared minimum distance and the eligible cells of
    one call. *)
Context {L : Libm}.
Variable d2 : float.
Variable tiles : list cell.

Lemma checked_nil : checked d2 [].
Proof. intros i j p q _ Hi. by rewrite lookup_nil in Hi. Qed.

Lemma checked_snoc (ducks : list (float * float)) (x y : float) :
  checked d2 ducks ->
  forallb (clear_of d2 x y) ducks = true ->
  checked d2 (ducks ++ [(x, y)]).
Proof.
  intros Hsep Hall i j p q Hij Hi Hj.
  rewrite forallb_forall in Hall.
  pose proof (lookup_lt_Some _ _ _ Hj) as Hjlt.
  rewrite length_app in Hjlt. simpl in Hjlt.
  apply lookup_snoc_Some in Hj as [[Hjl Hj]|[Hjl <-]].
  - rewrite lookup_app_l in Hi by lia. exact (Hsep i j p q Hij Hi Hj).
  - rewrite lookup_app_l in Hi by lia. simpl.
    apply Hall, list_elem_of_In. eapply list_elem_of_lookup_2; eauto.
Qed.

Lemma place_add (a b : nat) (ducks : list (float * float)) (r : Random) :
  place (a + b) d2 tiles ducks r =
  let* (d, r1) := place a d2 tiles ducks r in place b d2 tiles d r1.
Proof.
  revert ducks r. induction a as [|a IH]; intros ducks r; [done|].
  cbn [Nat.add place].
  destruct (attempts MAX_TRIES d2 tiles ducks r) as [[d1 r1]|e]; [|done].
  simpl. apply IH.
Qed.

(** When every candidate of the attempts is rejected the loop leaves the
    list as it was and raises nothing. *)
Lemma attempts_starved (k : nat) (ducks cands : list (float * float))
  (r r' : Random) :
  candidates k tiles r = Ok (cands, r') ->
  forallb (rejected d2 ducks) cands = true ->
  attempts k d2 tiles ducks r = Ok (ducks, r').
Proof.
  revert cands r. induction k as [|k IH]; intros cands r Hc Hrej.
  - by injection Hc as <- <-.
  - cbn [candidates] in Hc. bind_inv Hc as [[x y] r1] Hcand.
    bind_inv Hc as [ps r2] Hrest. injection Hc as <- <-.
    cbn [attempts]. rewrite Hcand. simpl in *.
    apply andb_prop in Hrej as [Hhd Htl]. unfold rejected in Hhd.
    simpl in Hhd. apply negb_true_iff in Hhd. rewrite Hhd. eauto.
Qed.

(** From here on the list of eligible cells is not empty, so that
    [rand.choice] cannot raise. *)
Hypothesis tiles_nonempty : tiles <> [].

Lemma candidate_total (r : Random) :
  exists p r', candidate tiles r = Ok (p, r').
Proof.
  unfold candidate.
  destruct (random r) as [u r1]. destruct (random r1) as [v r2].
  destruct (choice_total tiles r2 tiles_nonempty) as ([sx sy] & r3 & ->).
  simpl. eauto.
Qed.

(** The inner loop never raises; it appends at most one position, which
    passed the test against every position of the list. *)
Lemma attempts_spec (tries : nat) (ducks : list (float * float))
  (r : Random) :
  checked d2 ducks ->
  exists ducks' r',
    attempts tries d2 tiles ducks r = Ok (ducks', r') /\
    checked d2 ducks' /\
    (ducks' = ducks \/ exists p, ducks' = ducks ++ [p]).
Proof.
  intros Hsep. revert r. induction tries as [|k IH]; intros r.
  - simpl. do 2 eexists. split; [reflexivity|]. split; [done|by left].
  - cbn [attempts].
    destruct (candidate_total r) as ([x y] & r1 & ->). simpl.
    destruct (forallb (clear_of d2 x y) ducks) eqn:E.
    + do 2 eexists. split; [reflexivity|]. split; [|eauto].
      by apply checked_snoc.
    + apply IH.
Qed.

(** The outer loop never raises; it appends at most one position per
    iteration, at the end of the list. *)
Lemma place_spec (n : nat) (ducks : list (float * float)) (r : Random) :
  checked d2 ducks ->
  exists ducks' r',
    place n d2 tiles ducks r = Ok (ducks', r') /\
    checked d2 ducks' /\
    (length ducks' <= length ducks + n)%nat /\
    ducks `prefix_of` ducks'.
Proof.
  revert ducks r. induction n as [|n IH]; intros ducks r Hsep.
  - simpl. do 2 eexists. split; [reflexivity|]. split; [done|].
    split; [lia|done].
  - cbn [place].
    destruct (attempts_spec MAX_TRIES ducks r Hsep)
      as (d1 & r1 & -> & Hsep1 & Hd1). simpl.
    destruct (IH d1 r1 Hsep1) as (d2' & r2 & -> & Hsep2 & Hlen & Hpre).
    do 2 eexists. split; [reflexivity|]. split; [done|].
    destruct Hd1 as [->|[p ->]].
    + split; [lia|done].
    + rewrite length_app in Hlen. simpl in Hlen. split; [lia|].
      etrans; [|exact Hpre]. by apply prefix_app_r.
Qed.

End placer.

(** C6, as the claim states it, fails: the test of the code compares
    rounded binary64 numbers, and two positions closer to each other than
    the minimum distance can pass it.  With the minimum distance
    D = 0.5527269516442355 on the unit square of cells, the first object is
    placed on the cell (1, 0) and the second on the cell (1, 1); the sum
    of the rounded squares, 0.30550708307392904, exceeds the rounded
    product D * D = 0.305507083073929, and the second position is
    accepted, although the squared distance of the two positions is below
    the square of D.  (At the two differences of this example the
    correctly rounded square is also what the C library's [pow]
    returns.) *)
Lemma object_placement_accepts_closer_pair :
  object_placement (L := rounded_square) 2 0.5527269516442355%float
    [(0, 0); (1, 0); (1, 1); (0, 1)] (mkRandom tape_close 0)
  = Ok ([(0.5964995509570925, 0.502244433697573)%float;
         (0.8881774732907439, 0.9717453098384524)%float],
        mkRandom tape_close 6) /\
  clear_of (L := rounded_square)
    (0.5527269516442355 * 0.5527269516442355)%float
    0.8881774732907439%float 0.9717453098384524%float
    (0.5964995509570925, 0.502244433697573)%float = true /\
  (exact_dist_sq (0.5964995509570925, 0.502244433697573)%float
                 (0.8881774732907439, 0.9717453098384524)%float
   < exact 0.5527269516442355%float * exact 0.5527269516442355%float)%Q.
Proof.
  split; [vm_compute; reflexivity|].
  split; vm_compute; reflexivity.
Qed.

(** C6, as the code has it: for a count N >= 0 and a non-empty list of
    eligible cells, [object_placement] returns at most N positions, and
    every returned position passed the test of the code against every
    position returned before it: the binary64 sum of the two squares that
    [pow] returns is greater than the binary64 product D * D. *)
Theorem object_placement_pairs_checked :
  forall (L : Libm) (n : Z) (D : float) (possible_tiles : list cell)
         (r : Random),
    0 <= n -> possible_tiles <> [] ->
    exists ducks r',
      object_placement n D possible_tiles r = Ok (ducks, r') /\
      Z.of_nat (length ducks) <= n /\
      forall (i j : nat) (p q : float * float),
        (i < j)%nat -> ducks !! i = Some p -> ducks !! j = Some q ->
        float_gt (pow2 (fst q - fst p) + pow2 (snd q - snd p))%float
                 (D * D)%float = true.
Proof.
  intros L n D tiles r Hn Ht. unfold object_placement.
  destruct (place_spec (D * D)%float tiles Ht (Z.to_nat n) [] r
              (checked_nil _)) as (ducks & r' & Hp & Hsep & Hlen & _).
  exists ducks, r'. split; [done|]. split; [simpl in Hlen; lia|].
  intros i j p q Hij Hi Hj. exact (Hsep i j p q Hij Hi Hj).
Qed.

Lemma object_placement_pairs_checked_witness :
  exists ducks r',
    object_placement (L := rounded_square) 5 0.5%float
      [(0, 0); (1, 0); (1, 1); (0, 1)] (mkRandom tape_a 0)
    = Ok (ducks, r') /\
    Z.of_nat (length ducks) <= 5 /\
    forall (i j : nat) (p q : float * float),
      (i < j)%nat -> ducks !! i = Some p -> ducks !! j = Some q ->
      float_gt ((fst q - fst p) * (fst q - fst p) +
                (snd q - snd p) * (snd q - snd p))%float
               (0.5 * 0.5)%float = true.
Proof.
  apply (object_placement_pairs_checked rounded_square 5 0.5%float
           [(0, 0); (1, 0); (1, 1); (0, 1)] (mkRandom tape_a 0));
    [lia | discriminate].
Defined.

(** The placer at work: with D = 0.5 on a four-cell cycle this tape places
    four objects out of five. *)
Example object_placement_example :
  match object_placement (L := rounded_square) 5 0.5%float
          [(0, 0); (1, 0); (1, 1); (0, 1)] (mkRandom tape_a 0) with
  | Ok (ducks, _) => length ducks
  | Err _ => 0%nat
  end = 4%nat.
Proof. vm_compute. reflexivity. Qed.

(** C9: for n >= 1 and a non-empty list of eligible cells the candidate of
    the very first attempt is accepted (there is no earlier object to be
    too close to), so the returned list starts with it and is not empty. *)
Theorem object_placement_first_accepted :
  forall (L : Libm) (n : Z) (D : float) (possible_tiles : list cell)
         (r : Random),
    1 <= n -> possible_tiles <> [] ->
    exists p r1 ducks r',
      candidate possible_tiles r = Ok (p, r1) /\
      attempts MAX_TRIES (D * D)%float possible_tiles [] r = Ok ([p], r1) /\
      object_placement n D possible_tiles r = Ok (ducks, r') /\
      ducks !! 0%nat = Some p /\
      (1 <= length ducks)%nat.
Proof.
  intros L n D tiles r Hn Ht.
  destruct (candidate_total tiles Ht r) as ([x y] & r1 & Hc).
  assert (Hfirst : attempts MAX_TRIES (D * D)%float tiles [] r
                   = Ok ([(x, y)], r1)).
  { change MAX_TRIES with (S 49). cbn [attempts]. rewrite Hc. reflexivity. }
  assert (Hsep : checked (D * D)%float [(x, y)]).
  { apply (checked_snoc _ [] x y); [apply checked_nil | reflexivity]. }
  destruct (place_spec (D * D)%float tiles Ht (Z.to_nat n - 1) [(x, y)] r1
              Hsep) as (ducks & r' & Hp & _ & _ & Hpre).
  exists (x, y), r1, ducks, r'. split; [done|]. split; [done|].
  assert (Hobj : object_placement n D tiles r = Ok (ducks, r')).
  { unfold object_placement.
    replace (Z.to_nat n) with (S (Z.to_nat n - 1)) by lia.
    cbn [place]. rewrite Hfirst. exact Hp. }
  split; [done|].
  destruct Hpre as [rest ->]. split; [reflexivity | simpl; lia].
Qed.

Lemma object_placement_first_accepted_witness :
  exists p r1 ducks r',
    candidate [(0, 0); (1, 0)] (mkRandom tape_a 0) = Ok (p, r1) /\
    attempts (L := rounded_square) MAX_TRIES
      (float_of_int 10 * float_of_int 10)%float [(0, 0); (1, 0)] []
      (mkRandom tape_a 0) = Ok ([p], r1) /\
    object_placement (L := rounded_square) 5 (float_of_int 10)
      [(0, 0); (1, 0)] (mkRandom tape_a 0) = Ok (ducks, r') /\
    ducks !! 0%nat = Some p /\
    (1 <= length ducks)%nat.
Proof.
  apply (object_placement_first_accepted rounded_square 5 (float_of_int 10)
           [(0, 0); (1, 0)] (mkRandom tape_a 0)); [lia | discriminate].
Defined.

(** C7: when all 50 candidates drawn for the object of iteration [i] are
    rejected, no exception is raised and nothing is appended: the loop
    reaches the next iteration with the same list, and the list finally
    returned is shorter than the requested count. *)
Theorem object_placement_starved_object_dropped :
  forall (L : Libm) (n : Z) (D : float) (possible_tiles : list cell)
         (r : Random) (i : nat) (ducks_i cands : list (float * float))
         (r_i r_next : Random),
    possible_tiles <> [] ->
    (i < Z.to_nat n)%nat ->
    place i (D * D)%float possible_tiles [] r = Ok (ducks_i, r_i) ->
    candidates MAX_TRIES possible_tiles r_i = Ok (cands, r_next) ->
    forallb (rejected (D * D)%float ducks_i) cands = true ->
    attempts MAX_TRIES (D * D)%float possible_tiles ducks_i r_i
      = Ok (ducks_i, r_next) /\
    place (S i) (D * D)%float possible_tiles [] r = Ok (ducks_i, r_next) /\
    exists ducks r',
      object_placement n D possible_tiles r = Ok (ducks, r') /\
      Z.of_nat (length ducks) < n.
Proof.
  intros L n D tiles r i ducks_i cands r_i r_next Ht Hi Hstate Hc Hrej.
  pose proof (attempts_starved _ _ _ _ _ _ _ Hc Hrej) as Hatt.
  assert (Hnext : place (S i) (D * D)%float tiles [] r
                  = Ok (ducks_i, r_next)).
  { replace (S i) with (i + 1)%nat by lia.
    rewrite place_add, Hstate. cbn [rbind place]. rewrite Hatt. done. }
  split; [done|]. split; [done|].
  destruct (place_spec (D * D)%float tiles Ht i [] r (checked_nil _))
    as (d0 & r0 & Hp0 & Hsep & Hlen0 & _).
  rewrite Hstate in Hp0. injection Hp0 as <- <-.
  destruct (place_spec (D * D)%float tiles Ht (Z.to_nat n - S i) ducks_i
              r_next Hsep) as (ducks & r' & Hp & _ & Hlen & _).
  exists ducks, r'. split.
  - unfold object_placement.
    replace (Z.to_nat n) with (S i + (Z.to_nat n - S i))%nat by lia.
    rewrite place_add, Hnext. exact Hp.
  - simpl in Hlen0. lia.
Qed.

Lemma object_placement_starved_object_dropped_witness :
  exists ducks_i r_i cands r_next,
    place (L := rounded_square) 1 (float_of_int 10 * float_of_int 10)%float
      [(0, 0); (1, 0); (1, 1); (0, 1)] [] (mkRandom tape_a 0)
    = Ok (ducks_i, r_i) /\
    candidates MAX_TRIES [(0, 0); (1, 0); (1, 1); (0, 1)] r_i
      = Ok (cands, r_next) /\
    forallb (rejected (L := rounded_square)
               (float_of_int 10 * float_of_int 10)%float ducks_i) cands
    = true /\
    (attempts (L := rounded_square) MAX_TRIES
       (float_of_int 10 * float_of_int 10)%float
       [(0, 0); (1, 0); (1, 1); (0, 1)] ducks_i r_i = Ok (ducks_i, r_next) /\
     place (L := rounded_square) 2 (float_of_int 10 * float_of_int 10)%float
       [(0, 0); (1, 0); (1, 1); (0, 1)] [] (mkRandom tape_a 0)
     = Ok (ducks_i, r_next) /\
     exists ducks r',
       object_placement (L := rounded_square) 5 (float_of_int 10)
         [(0, 0); (1, 0); (1, 1); (0, 1)] (mkRandom tape_a 0)
       = Ok (ducks, r') /\
       Z.of_nat (length ducks) < 5).
Proof.
  eexists _, _, _, _.
  split; [vm_compute; reflexivity|].
  split; [vm_compute; reflexivity|].
  split; [vm_compute; reflexivity|].
  eapply (object_placement_starved_object_dropped rounded_square 5
            (float_of_int 10) [(0, 0); (1, 0); (1, 1); (0, 1)]
            (mkRandom tape_a 0) 1%nat).
  - discriminate.
  - simpl. lia.
  - vm_compute; reflexivity.
  - vm_compute; reflexivity.
  - vm_compute; reflexivity.
Defined.

(* ===================================================================== *)
(** * The connectivity mapper *)
(* ===================================================================== *)

Lemma cell_eqb_eq (a b : cell) : cell_eqb a b = true <-> a = b.
Proof.
  destruct a as [ax ay], b as [bx by_]. unfold cell_eqb; simpl.
  rewrite andb_true_iff, !Z.eqb_eq. split.
  - intros [-> ->]. done.
  - intros [= -> ->]. done.
Qed.

Lemma cell_in_elem (c : cell) (l : list cell) : cell_in c l = true <-> c ∈ l.
Proof.
  unfold cell_in. rewrite existsb_exists. split.
  - intros (x & Hx & Heq). apply cell_eqb_eq in Heq as ->.
    by apply list_elem_of_In.
  - intros H. exists c. split; [by apply list_elem_of_In|].
    by apply cell_eqb_eq.
Qed.

Lemma nodupb_NoDup (l : list cell) : nodupb l = true <-> NoDup l.
Proof.
  induction l as [|c l IH]; simpl.
  - split; [constructor | done].
  - rewrite andb_true_iff, negb_true_iff, NoDup_cons, <- IH.
    rewrite <- not_true_iff_false, cell_in_elem. done.
Qed.

Lemma cell_at_lookup (l : list cell) (k : Z) :
  0 <= k < Z.of_nat (length l) -> l !! Z.to_nat k = Some (cell_at l k).
Proof.
  intros H. unfold cell_at.
  destruct (l !! Z.to_nat k) as [c|] eqn:E.
  - f_equal. symmetry. by apply nth_lookup_Some with (d := (0, 0)) in E.
  - apply lookup_ge_None in E. lia.
Qed.

Lemma py_get_cell_at (l : list cell) (k : Z) :
  0 <= k < Z.of_nat (length l) -> py_get l k = Ok (cell_at l k).
Proof. intros H. by rewrite py_get_nonneg, cell_at_lookup. Qed.

(** [edges[i - 1]]: for i = 0 the index -1 denotes the last cell. *)
Lemma py_get_pred (l : list cell) (i : Z) :
  0 <= i < Z.of_nat (length l) ->
  py_get l (i - 1) = Ok (cell_at l ((i - 1) mod Z.of_nat (length l))).
Proof.
  intros H. destruct (Z.eq_dec i 0) as [->|Hi].
  - replace ((0 - 1) mod Z.of_nat (length l)) with (Z.of_nat (length l) - 1).
    2:{ apply Z.mod_unique with (q := -1); lia. }
    rewrite <- py_get_cell_at by lia. unfold py_get, py_index.
    replace ((0 <=? 0 - 1) && _) with false by (symmetry; apply andb_false_intro1; lia).
    replace ((- Z.of_nat (length l) <=? 0 - 1) && (0 - 1 <? 0)) with true
      by (symmetry; apply andb_true_intro; split; lia).
    replace ((0 <=? Z.of_nat (length l) - 1) && _) with true
      by (symmetry; apply andb_true_intro; split; lia).
    repeat f_equal; lia.
  - rewrite Z.mod_small by lia. apply py_get_cell_at. lia.
Qed.

Lemma cell_at_elem (l : list cell) (k : Z) :
  0 <= k < Z.of_nat (length l) -> cell_at l k ∈ l.
Proof. intros H. eapply list_elem_of_lookup_2, cell_at_lookup, H. Qed.

Lemma elem_cell_at (l : list cell) (c : cell) :
  c ∈ l -> exists k, 0 <= k < Z.of_nat (length l) /\ cell_at l k = c.
Proof.
  intros H. apply list_elem_of_lookup_1 in H as [i Hi].
  pose proof (lookup_lt_Some _ _ _ Hi) as Hlt.
  exists (Z.of_nat i). split; [lia|].
  pose proof (cell_at_lookup l (Z.of_nat i) ltac:(lia)) as Hc.
  rewrite Nat2Z.id in Hc. congruence.
Qed.

Lemma cell_at_inj (l : list cell) (i j : Z) :
  NoDup l -> 0 <= i < Z.of_nat (length l) -> 0 <= j < Z.of_nat (length l) ->
  cell_at l i = cell_at l j -> i = j.
Proof.
  intros Hnd Hi Hj Heq.
  pose proof (cell_at_lookup l i Hi) as H1.
  pose proof (cell_at_lookup l j Hj) as H2.
  rewrite Heq in H1.
  pose proof (NoDup_lookup _ _ _ _ Hnd H1 H2). lia.
Qed.

Lemma in_grid_spec (width height : Z) (c : cell) :
  in_grid width height c = true <->
  0 <= fst c < width /\ 0 <= snd c < height.
Proof. unfold in_grid. rewrite !andb_true_iff. lia. Qed.

Lemma empty_dims (width height : Z) : grid_dims width height (empty width height).
Proof.
  unfold grid_dims, empty. split.
  - by rewrite length_map, range_length.
  - apply Forall_forall. intros row Hrow.
    apply list_elem_of_fmap in Hrow as (? & -> & _). apply py_repeat_length.
Qed.

Lemma repeat_lookup {A} (v : A) (n i : nat) :
  (i < n)%nat -> repeat v n !! i = Some v.
Proof.
  revert i. induction n as [|n IH]; intros i Hi; [lia|].
  destruct i; simpl; [done|]. apply IH. lia.
Qed.

Lemma empty_at (width height : Z) (c : cell) :
  in_grid width height c = true ->
  grid_at (empty width height) c = Some no_conn.
Proof.
  intros Hc. apply in_grid_spec in Hc as [Hx Hy].
  unfold grid_at, empty, range. rewrite list_lookup_fmap, list_lookup_fmap.
  rewrite lookup_seq_lt by lia. simpl.
  apply repeat_lookup. lia.
Qed.

(** The assignment [g[y][x] = v] on a grid of the right size, at a cell of
    the grid: it succeeds, changes the entry at (x, y) and nothing else. *)
Lemma py_set2_spec {A} (width height : Z) (g : list (list A)) (x y : Z) (v : A) :
  grid_dims width height g -> in_grid width height (x, y) = true ->
  exists g',
    py_set2 g y x v = Ok g' /\
    grid_dims width height g' /\
    grid_at g' (x, y) = Some v /\
    (forall c, in_grid width height c = true -> c <> (x, y) ->
               grid_at g' c = grid_at g c).
Proof.
  intros [Hlen Hrows] Hc. apply in_grid_spec in Hc as [Hx Hy]; simpl in *.
  unfold py_set2.
  rewrite py_get_nonneg by lia.
  destruct (g !! Z.to_nat y) as [row|] eqn:Erow.
  2:{ apply lookup_ge_None in Erow. lia. }
  assert (Hrow : length row = Z.to_nat width).
  { rewrite Forall_forall in Hrows. apply Hrows.
    eapply list_elem_of_lookup_2; eauto. }
  cbn [rbind]. unfold py_set. rewrite !py_index_nonneg by lia. cbn [rbind].
  eexists. split; [reflexivity|]. split; [|split].
  - split; [by rewrite length_insert|].
    apply Forall_insert; [done|]. by rewrite length_insert.
  - unfold grid_at; simpl. rewrite list_lookup_insert_eq by lia.
    apply list_lookup_insert_eq. lia.
  - intros [cx cy] Hin Hne. apply in_grid_spec in Hin as [Hcx Hcy].
    unfold grid_at; simpl in *.
    destruct (Z.eq_dec cy y) as [->|Hy'].
    + rewrite list_lookup_insert_eq by lia. rewrite Erow.
      apply list_lookup_insert_ne. intros Heq. apply Hne. f_equal. lia.
    + rewrite list_lookup_insert_ne by lia. done.
Qed.

Lemma adjacentb_cases (x y : Z) (p : cell) :
  adjacentb (x, y) p = true ->
  p = (x, y - 1) \/ p = (x + 1, y) \/ p = (x, y + 1) \/ p = (x - 1, y).
Proof.
  destruct p as [px py]. unfold adjacentb; simpl. rewrite Z.eqb_eq. intros H.
  assert (Hc : (px = x /\ py = y - 1) \/ (px = x + 1 /\ py = y) \/
               (px = x /\ py = y + 1) \/ (px = x - 1 /\ py = y)) by lia.
  destruct Hc as [[-> ->]|[[-> ->]|[[-> ->]|[-> ->]]]]; auto.
Qed.

(** Decides the integer equality tests left in the goal. *)
Ltac decide_eqb :=
  repeat match goal with
  | |- context [?a =? ?b] =>
      first [ replace (a =? b) with true by (symmetry; apply Z.eqb_eq; lia)
            | replace (a =? b) with false by (symmetry; apply Z.eqb_neq; lia) ]
  end.

(** Two distinct neighbours of a cell set exactly two flags, the ones that
    point at them. *)
Lemma flags_two (x y : Z) (p s : cell) :
  adjacentb (x, y) p = true -> adjacentb (x, y) s = true -> p <> s ->
  count_true (flags x y [p; s]) = 2%nat /\
  (forall d, d ∈ flagged (flags x y [p; s]) (x, y) <-> d = p \/ d = s).
Proof.
  intros Hp Hs Hne.
  apply adjacentb_cases in Hp. apply adjacentb_cases in Hs.
  destruct Hp as [-> | [-> | [-> | ->]]];
    destruct Hs as [-> | [-> | [-> | ->]]];
    try (by destruct Hne);
    unfold flags, cell_in, cell_eqb, count_true, flagged; cbn;
    decide_eqb; cbn; (split; [reflexivity|]); intros d;
    rewrite ?elem_of_cons, ?elem_of_nil; tauto.
Qed.

Lemma succ_mod (i len : Z) :
  0 <= i < len ->
  (i + 1 = len /\ (i + 1) mod len = 0) \/
  (i + 1 < len /\ (i + 1) mod len = i + 1).
Proof.
  intros H. destruct (Z.eq_dec (i + 1) len) as [E|E].
  - left. split; [done|]. rewrite E. apply Z.mod_same. lia.
  - right. split; [lia|]. apply Z.mod_small. lia.
Qed.

Lemma pred_mod (i len : Z) :
  0 <= i < len ->
  (i = 0 /\ (i - 1) mod len = len - 1) \/
  (0 < i /\ (i - 1) mod len = i - 1).
Proof.
  intros H. destruct (Z.eq_dec i 0) as [E|E].
  - left. split; [done|]. subst i. symmetry.
    apply Z.mod_unique with (q := -1); lia.
  - right. split; [lia|]. apply Z.mod_small. lia.
Qed.

Lemma adjacentb_sym (a b : cell) : adjacentb a b = adjacentb b a.
Proof.
  unfold adjacentb. f_equal.
  rewrite <- (Z.abs_opp (fst a - fst b)), <- (Z.abs_opp (snd a - snd b)).
  f_equal; f_equal; lia.
Qed.

(** What [is_valid_cycle] checks. *)
Lemma is_valid_cycle_spec (width height : Z) (edges : list cell) :
  is_valid_cycle width height edges = true <->
  4 <= Z.of_nat (length edges) /\
  NoDup edges /\
  (forall i, 0 <= i < Z.of_nat (length edges) ->
     adjacentb (cell_at edges i)
               (cell_at edges ((i + 1) mod Z.of_nat (length edges))) = true) /\
  Forall (fun c => in_grid width height c = true) edges.
Proof.
  unfold is_valid_cycle, cyclic_adjacentb.
  rewrite !andb_true_iff, Z.leb_le, nodupb_NoDup, !forallb_forall, Forall_forall.
  split.
  - intros [[[H1 H2] H3] H4]. repeat split; [done..| |].
    + intros i Hi. apply H3, list_elem_of_In, range_elem, Hi.
    + intros c Hc. by apply H4, list_elem_of_In.
  - intros (H1 & H2 & H3 & H4). repeat split; [done..| |].
    + intros i Hi. apply H3, range_elem, list_elem_of_In, Hi.
    + intros c Hc. by apply H4, list_elem_of_In.
Qed.

(** In a valid cycle the predecessor and the successor of a cell are two
    distinct neighbours of it. *)
Lemma valid_cycle_neighbours (width height : Z) (edges : list cell) (i : Z) :
  is_valid_cycle width height edges = true ->
  0 <= i < Z.of_nat (length edges) ->
  let len := Z.of_nat (length edges) in
  adjacentb (cell_at edges i) (cell_at edges ((i - 1) mod len)) = true /\
  adjacentb (cell_at edges i) (cell_at edges ((i + 1) mod len)) = true /\
  cell_at edges ((i - 1) mod len) <> cell_at edges ((i + 1) mod len).
Proof.
  intros Hv Hi len. apply is_valid_cycle_spec in Hv as (Hlen & Hnd & Hadj & _).
  fold len in Hlen, Hadj, Hi.
  assert (Hp : 0 <= (i - 1) mod len < len) by (apply Z.mod_pos_bound; lia).
  assert (Hs : 0 <= (i + 1) mod len < len) by (apply Z.mod_pos_bound; lia).
  split; [|split].
  - rewrite adjacentb_sym.
    replace i with (((i - 1) mod len + 1) mod len) at 2; [by apply Hadj|].
    destruct (pred_mod i len Hi) as [[-> ->]|[H0 ->]].
    + replace (len - 1 + 1) with len by lia. apply Z.mod_same. lia.
    + replace (i - 1 + 1) with i by lia. apply Z.mod_small. lia.
  - by apply Hadj.
  - intros Heq. apply cell_at_inj in Heq; [|done..].
    destruct (pred_mod i len Hi) as [[? E1]|[? E1]];
      destruct (succ_mod i len Hi) as [[? E2]|[? E2]]; lia.
Qed.

Lemma edge_path_step_eq (edges : list cell) (j : Z) (g : list (list conn)) :
  0 <= j < Z.of_nat (length edges) ->
  edge_path_step edges (Z.of_nat (length edges)) j g =
  py_set2 g (snd (cell_at edges j)) (fst (cell_at edges j)) (flags_of edges j).
Proof.
  intros Hj. unfold edge_path_step, flags_of.
  rewrite py_get_pred by done. cbn [rbind].
  rewrite py_get_cell_at by (apply Z.mod_pos_bound; lia). cbn [rbind].
  rewrite py_get_cell_at by done. cbn [rbind].
  by destruct (cell_at edges j) as [x y].
Qed.

(** The loop of [edge_path_to_grid] over the indices [js]. *)
Lemma edge_path_loop (width height : Z) (edges : list cell) (js : list Z)
  (g : list (list conn)) :
  NoDup edges -> Forall (fun c => in_grid width height c = true) edges ->
  grid_dims width height g -> NoDup js ->
  (forall j, j ∈ js -> 0 <= j < Z.of_nat (length edges)) ->
  exists g',
    for_each js (edge_path_step edges (Z.of_nat (length edges))) g = Ok g' /\
    grid_dims width height g' /\
    (forall j, j ∈ js -> grid_at g' (cell_at edges j) = Some (flags_of edges j)) /\
    (forall c, in_grid width height c = true ->
               (forall j, j ∈ js -> cell_at edges j <> c) ->
               grid_at g' c = grid_at g c).
Proof.
  intros Hnd Hin. revert g.
  induction js as [|j js IH]; intros g Hg Hjs Hrange.
  - exists g. split; [done|]. split; [done|]. split; [|done].
    intros j Hj. by apply elem_of_nil in Hj.
  - apply NoDup_cons in Hjs as [Hj Hjs].
    assert (Hj0 : 0 <= j < Z.of_nat (length edges))
      by (apply Hrange; by left).
    assert (Hcj : in_grid width height (cell_at edges j) = true).
    { rewrite Forall_forall in Hin. by apply Hin, cell_at_elem. }
    cbn [for_each]. rewrite edge_path_step_eq by done.
    destruct (cell_at edges j) as [x y] eqn:Ecj. simpl fst; simpl snd.
    destruct (py_set2_spec width height g x y (flags_of edges j) Hg Hcj)
      as (g1 & -> & Hg1 & Hat1 & Hother1). cbn [rbind].
    destruct (IH g1 Hg1 Hjs) as (g' & -> & Hg' & Hat & Hother).
    { intros k Hk. apply Hrange. by right. }
    exists g'. split; [done|]. split; [done|]. split.
    + intros k Hk. apply elem_of_cons in Hk as [->|Hk]; [|by apply Hat].
      rewrite Ecj, Hother; [done|done|].
      intros k Hk Heq. rewrite <- Ecj in Heq.
      apply cell_at_inj in Heq; [|done|by apply Hrange; right|done].
      by subst k.
    + intros c Hc Hnot. rewrite Hother.
      * apply Hother1; [done|]. intros ->. eapply Hnot; [by left|done].
      * done.
      * intros k Hk. apply Hnot. by right.
Qed.

Lemma range_NoDup (n : Z) : NoDup (range n).
Proof.
  unfold range. apply NoDup_fmap_2; [|apply NoDup_seq].
  intros a b. lia.
Qed.

(** What [edge_path_to_grid] returns on a valid cycle. *)
Lemma edge_path_to_grid_spec (width height : Z) (edges : list cell) :
  is_valid_cycle width height edges = true ->
  exists g,
    edge_path_to_grid width height edges = Ok g /\
    grid_dims width height g /\
    (forall i, 0 <= i < Z.of_nat (length edges) ->
       grid_at g (cell_at edges i) = Some (flags_of edges i)) /\
    (forall c, in_grid width height c = true -> c ∉ edges ->
       grid_at g c = Some no_conn).
Proof.
  intros Hv. pose proof Hv as Hv'.
  apply is_valid_cycle_spec in Hv' as (Hlen & Hnd & Hadj & Hin).
  destruct (edge_path_loop width height edges
              (range (Z.of_nat (length edges))) (empty width height)
              Hnd Hin (empty_dims _ _) (range_NoDup _))
    as (g & Hg & Hdims & Hat & Hother).
  { intros j. apply range_elem. }
  exists g. split; [exact Hg|]. split; [done|]. split.
  - intros i Hi. apply Hat, range_elem, Hi.
  - intros c Hc Hnot. rewrite Hother; [by apply empty_at|done|].
    intros j Hj <-. apply Hnot, cell_at_elem, range_elem, Hj.
Qed.

Lemma flags_of_two (width height : Z) (edges : list cell) (i : Z) :
  is_valid_cycle width height edges = true ->
  0 <= i < Z.of_nat (length edges) ->
  let len := Z.of_nat (length edges) in
  count_true (flags_of edges i) = 2%nat /\
  (forall d, d ∈ flagged (flags_of edges i) (cell_at edges i) <->
             d = cell_at edges ((i - 1) mod len) \/
             d = cell_at edges ((i + 1) mod len)).
Proof.
  intros Hv Hi len.
  destruct (valid_cycle_neighbours width height edges i Hv Hi)
    as (Hp & Hs & Hne).
  unfold flags_of. fold len. fold len in Hp, Hs, Hne.
  destruct (cell_at edges i) as [x y]. by apply flags_two.
Qed.

(** C3: on a valid cycle [edge_path_to_grid] returns a width x height grid
    in which the record of the cell at every index i has exactly two true
    flags, which point at the cells at indices (i - 1) mod length and
    (i + 1) mod length, and in which every cell of the grid that is not on
    the cycle has the all-false record. *)
Theorem edge_path_to_grid_two_flags :
  forall (width height : Z) (edges : list cell),
    is_valid_cycle width height edges = true ->
    exists g,
      edge_path_to_grid width height edges = Ok g /\
      grid_dims width height g /\
      (forall i, 0 <= i < Z.of_nat (length edges) ->
         exists r,
           grid_at g (cell_at edges i) = Some r /\
           count_true r = 2%nat /\
           (forall d, d ∈ flagged r (cell_at edges i) <->
              d = cell_at edges ((i - 1) mod Z.of_nat (length edges)) \/
              d = cell_at edges ((i + 1) mod Z.of_nat (length edges)))) /\
      (forall c, in_grid width height c = true -> c ∉ edges ->
         grid_at g c = Some (false, false, false, false)).
Proof.
  intros width height edges Hv.
  destruct (edge_path_to_grid_spec width height edges Hv)
    as (g & Hg & Hdims & Hat & Hother).
  exists g. split; [done|]. split; [done|]. split; [|exact Hother].
  intros i Hi. exists (flags_of edges i). split; [by apply Hat|].
  by apply (flags_of_two width height).
Qed.

Lemma edge_path_to_grid_two_flags_witness :
  exists g,
    edge_path_to_grid 3 2 [(0, 0); (1, 0); (1, 1); (0, 1)] = Ok g /\
    grid_dims 3 2 g /\
    (forall i, 0 <= i < Z.of_nat (length [(0, 0); (1, 0); (1, 1); (0, 1)]) ->
       exists r,
         grid_at g (cell_at [(0, 0); (1, 0); (1, 1); (0, 1)] i) = Some r /\
         count_true r = 2%nat /\
         (forall d, d ∈ flagged r (cell_at [(0, 0); (1, 0); (1, 1); (0, 1)] i) <->
            d = cell_at [(0, 0); (1, 0); (1, 1); (0, 1)]
                  ((i - 1) mod Z.of_nat (length [(0, 0); (1, 0); (1, 1); (0, 1)])) \/
            d = cell_at [(0, 0); (1, 0); (1, 1); (0, 1)]
                  ((i + 1) mod Z.of_nat (length [(0, 0); (1, 0); (1, 1); (0, 1)])))) /\
    (forall c, in_grid 3 2 c = true -> c ∉ [(0, 0); (1, 0); (1, 1); (0, 1)] ->
       grid_at g c = Some (false, false, false, false)).
Proof.
  apply (edge_path_to_grid_two_flags 3 2 [(0, 0); (1, 0); (1, 1); (0, 1)]).
  reflexivity.
Defined.

(** The grid of that cycle, computed. *)
Example edge_path_to_grid_square :
  edge_path_to_grid 3 2 [(0, 0); (1, 0); (1, 1); (0, 1)]
  = Ok [[(false, true, true, false); (false, false, true, true); no_conn];
        [(true, true, false, false); (true, false, false, true); no_conn]].
Proof. reflexivity. Qed.

(* ===================================================================== *)
(** * The classifier on the grids of valid cycles *)
(* ===================================================================== *)

Lemma for_each_total {S A} (I : S -> Prop) (xs : list A)
  (body : A -> S -> result S) :
  (forall x s, x ∈ xs -> I s -> exists s', body x s = Ok s' /\ I s') ->
  forall s, I s -> exists s', for_each xs body s = Ok s' /\ I s'.
Proof.
  induction xs as [|x xs IH]; intros Hbody s Hs.
  - exists s. done.
  - destruct (Hbody x s) as (s1 & H1 & Hs1); [by left|done|].
    cbn [for_each]. rewrite H1. cbn [rbind]. apply IH; [|done].
    intros; apply Hbody; [by right|done].
Qed.

Lemma classify_names (c : conn) (name : string) :
  classify c = Some name -> name ∈ tile_names /\ name <> EmptyString.
Proof.
  intros H.
  destruct c as [[[[] []] []] []]; vm_compute in H; try discriminate;
    injection H as <-; (split; [|discriminate]);
    unfold tile_names; rewrite !elem_of_cons;
    repeat first [ by left | right ].
Qed.

Lemma classify_two_flags (c : conn) :
  count_true c = 2%nat \/ c = no_conn -> exists name, classify c = Some name.
Proof.
  destruct c as [[[[] []] []] []]; vm_compute; intros [H|H];
    try discriminate; eauto.
Qed.

(** Reading [g[y][x]] on a grid of the right size. *)
Lemma py_get2_grid_at {A} (width height : Z) (g : list (list A)) (x y : Z) :
  grid_dims width height g -> in_grid width height (x, y) = true ->
  exists row v,
    py_get g y = Ok row /\ py_get row x = Ok v /\ grid_at g (x, y) = Some v.
Proof.
  intros [Hlen Hrows] Hc. apply in_grid_spec in Hc as [Hx Hy].
  simpl in Hx, Hy. unfold grid_at; simpl.
  destruct (g !! Z.to_nat y) as [row|] eqn:Erow.
  2:{ apply lookup_ge_None in Erow. lia. }
  assert (Hrow : length row = Z.to_nat width).
  { rewrite Forall_forall in Hrows. apply Hrows.
    eapply list_elem_of_lookup_2; eauto. }
  destruct (row !! Z.to_nat x) as [v|] eqn:Ev.
  2:{ apply lookup_ge_None in Ev. lia. }
  exists row, v. split; [|split; [|done]].
  - rewrite py_get_nonneg by lia. by rewrite Erow.
  - rewrite py_get_nonneg by lia. by rewrite Ev.
Qed.

Lemma graph_transform_cell_known (width height : Z)
  (conn_map : list (list conn)) (x y : Z) (t : tiling) :
  grid_dims width height conn_map ->
  (forall c, in_grid width height c = true ->
     exists r name, grid_at conn_map c = Some r /\ classify r = Some name) ->
  in_grid width height (x, y) = true ->
  tiling_ok width height t ->
  exists t', graph_transform_cell conn_map y x t = Ok t' /\
             tiling_ok width height t'.
Proof.
  intros Hdims Hknown Hc (Htd & Hun & Hnames).
  destruct (py_get2_grid_at width height conn_map x y Hdims Hc)
    as (crow & c & Hrow & Hcell & Hat).
  destruct (Hknown _ Hc) as (r & name & Hat' & Hname).
  rewrite Hat in Hat'. injection Hat' as ->.
  unfold graph_transform_cell. rewrite Hrow. cbn [rbind].
  rewrite Hcell. cbn [rbind]. rewrite Hname.
  destruct (py_set2_spec width height (tile_map t) x y name Htd Hc)
    as (tm & Hset & Htm & _). rewrite Hset. cbn [rbind].
  eexists. split; [reflexivity|]. split; [exact Htm|]. split; [exact Hun|].
  simpl. eapply py_set2_Forall; [exact Hnames| |exact Hset].
  by apply (classify_names r).
Qed.

(** On a grid whose records are all classified, [graph_transform] runs to
    the end without taking the final [else]. *)
Lemma graph_transform_known (width height : Z) (conn_map : list (list conn)) :
  grid_dims width height conn_map ->
  (forall c, in_grid width height c = true ->
     exists r name, grid_at conn_map c = Some r /\ classify r = Some name) ->
  exists t, graph_transform width height conn_map = Ok t /\
            tiling_ok width height t.
Proof.
  intros Hdims Hknown. unfold graph_transform.
  apply (for_each_total (tiling_ok width height)).
  - intros y t Hy Ht.
    apply (for_each_total (tiling_ok width height)); [|done].
    intros x t1 Hx Ht1.
    apply (graph_transform_cell_known width height); [done..| |done].
    apply range_elem in Hx, Hy. apply in_grid_spec. simpl. lia.
  - split; [|split; [done|]]; simpl.
    + split; [by rewrite length_map, range_length|].
      apply Forall_forall. intros row Hrow.
      apply list_elem_of_fmap in Hrow as (? & -> & _). apply py_repeat_length.
    + apply Forall_forall. intros row Hrow.
      apply list_elem_of_fmap in Hrow as (? & -> & _).
      apply Forall_forall. intros s Hs. unfold py_repeat in Hs.
      apply list_elem_of_In, repeat_spec in Hs. subst s.
      split; [|discriminate]. unfold tile_names. by left.
Qed.

(** C4: on the grid that [edge_path_to_grid] builds from a valid cycle,
    [graph_transform] never takes its unknown-tile branch: every record of
    the grid is classified as an asset identifier, no cell of the tile map
    holds the empty string and no unknown tile is reported. *)
Theorem graph_transform_total_on_cycles :
  forall (width height : Z) (edges : list cell),
    is_valid_cycle width height edges = true ->
    exists g t,
      edge_path_to_grid width height edges = Ok g /\
      graph_transform width height g = Ok t /\
      (forall c, in_grid width height c = true ->
         exists r name, grid_at g c = Some r /\ classify r = Some name /\
                        name ∈ tile_names) /\
      unknown t = [] /\
      grid_dims width height (tile_map t) /\
      (forall row name, row ∈ tile_map t -> name ∈ row ->
         name <> EmptyString /\ name ∈ tile_names).
Proof.
  intros width height edges Hv.
  destruct (edge_path_to_grid_spec width height edges Hv)
    as (g & Hg & Hdims & Hat & Hother).
  assert (Hknown : forall c, in_grid width height c = true ->
            exists r name, grid_at g c = Some r /\ classify r = Some name).
  { intros c Hc. destruct (cell_in c edges) eqn:Ein.
    - apply cell_in_elem, elem_cell_at in Ein as (i & Hi & <-).
      destruct (classify_two_flags (flags_of edges i)) as [name Hname].
      { left. by apply (flags_of_two width height). }
      exists (flags_of edges i), name. split; [by apply Hat|done].
    - exists no_conn, "grass"%string. split; [|done].
      apply Hother; [done|]. intros Hin. apply cell_in_elem in Hin. congruence. }
  destruct (graph_transform_known width height g Hdims Hknown)
    as (t & Ht & Htd & Hun & Hnames).
  exists g, t. split; [done|]. split; [done|]. split; [|split; [done|split; [done|]]].
  - intros c Hc. destruct (Hknown c Hc) as (r & name & Hr & Hname).
    exists r, name. split; [done|]. split; [done|].
    by apply (classify_names r).
  - intros row name Hrow Hin. rewrite Forall_forall in Hnames.
    specialize (Hnames row Hrow). rewrite Forall_forall in Hnames.
    destruct (Hnames name Hin). done.
Qed.

Lemma graph_transform_total_on_cycles_witness :
  exists g t,
    edge_path_to_grid 3 2 [(0, 0); (1, 0); (1, 1); (0, 1)] = Ok g /\
    graph_transform 3 2 g = Ok t /\
    (forall c, in_grid 3 2 c = true ->
       exists r name, grid_at g c = Some r /\ classify r = Some name /\
                      name ∈ tile_names) /\
    unknown t = [] /\
    grid_dims 3 2 (tile_map t) /\
    (forall row name, row ∈ tile_map t -> name ∈ row ->
       name <> EmptyString /\ name ∈ tile_names).
Proof.
  apply (graph_transform_total_on_cycles 3 2 [(0, 0); (1, 0); (1, 1); (0, 1)]).
  reflexivity.
Defined.

(** The tile map of that cycle, computed. *)
Example graph_transform_square :
  (let* g := edge_path_to_grid 3 2 [(0, 0); (1, 0); (1, 1); (0, 1)] in
   graph_transform 3 2 g)
  = Ok (mkTiling [["curve_left/W"; "curve_left/N"; "grass"];
                  ["curve_left/S"; "curve_left/E"; "grass"]]%string []).
Proof. reflexivity. Qed.

(* ===================================================================== *)
(** * The exhaustive cycle enumeration *)
(* ===================================================================== *)

Lemma range_nonpos (n : Z) : n <= 0 -> range n = [].
Proof. intros H. unfold range. by replace (Z.to_nat n) with 0%nat by lia. Qed.

Lemma range_pos (n : Z) :
  1 <= n -> range n = 0 :: map Z.of_nat (seq 1 (Z.to_nat n - 1)).
Proof.
  intros H. unfold range.
  destruct (Z.to_nat n) as [|k] eqn:E; [lia|].
  simpl. by rewrite Nat.sub_0_r.
Qed.

Lemma flat_map_nil {A B} (f : A -> list B) (l : list A) :
  (forall a, f a = []) -> flat_map f l = [].
Proof. intros Hf. induction l as [|a l IH]; simpl; [done|]. by rewrite Hf, IH. Qed.

(** A grid without two adjacent cells has no cycle at all. *)
Lemma simple_cycles_degenerate (width height : Z) :
  width <= 0 \/ height <= 0 \/ (width = 1 /\ height = 1) ->
  simple_cycles (grid_graph width height) = [].
Proof.
  unfold simple_cycles, grid_graph, grid_nodes; cbn [graph_nodes graph_succ].
  intros [H|[H|[-> ->]]].
  - by rewrite (range_nonpos width).
  - rewrite (range_nonpos height) by done. by rewrite flat_map_nil.
  - reflexivity.
Qed.

(** [all_loops] raises for a negative size and for no other. *)
Lemma all_loops_Ok (width height : Z) :
  0 <= width -> 0 <= height ->
  all_loops width height = Ok (simple_cycles (grid_graph width height)).
Proof.
  intros Hw Hh. unfold all_loops, grid_2d_graph.
  destruct (Z.ltb_spec width 0); [lia|].
  by destruct (Z.ltb_spec height 0); [lia|].
Qed.

Lemma all_loops_negative (width height : Z) :
  width < 0 \/ height < 0 ->
  all_loops width height = Err NetworkXError.
Proof.
  intros H. unfold all_loops, grid_2d_graph.
  destruct (Z.ltb_spec width 0); [done|].
  by destruct (Z.ltb_spec height 0); [|lia].
Qed.

Lemma all_loops_inv (width height : Z) (loops : list (list cell)) :
  all_loops width height = Ok loops ->
  0 <= width /\ 0 <= height /\ loops = simple_cycles (grid_graph width height).
Proof.
  unfold all_loops, grid_2d_graph.
  destruct ((width <? 0) || (height <? 0)) eqn:E; [done|].
  apply orb_false_iff in E as [Hw Hh]. intros [= <-].
  apply Z.ltb_ge in Hw, Hh. done.
Qed.

(** The first two nodes of a grid with at least two rows. *)
Lemma grid_nodes_head (width height : Z) :
  1 <= width -> 2 <= height ->
  exists rest, grid_nodes width height = (0, 0) :: (0, 1) :: rest.
Proof.
  intros Hw Hh. unfold grid_nodes. rewrite (range_pos width) by done.
  cbn [flat_map]. rewrite (range_pos height) by lia.
  replace (Z.to_nat height - 1)%nat with (S (Z.to_nat height - 2)) by lia.
  cbn [seq map app]. eauto.
Qed.

Lemma grid_succ_elem (width height : Z) (c d : cell) :
  d ∈ grid_succ width height c <->
  (d = (fst c + 1, snd c) \/ d = (fst c - 1, snd c) \/
   d = (fst c, snd c + 1) \/ d = (fst c, snd c - 1)) /\
  in_grid width height d = true.
Proof.
  destruct c as [x y]. unfold grid_succ.
  rewrite list_elem_of_In, filter_In. simpl. intuition congruence.
Qed.

(** An edge back to the start closes the path into a cycle. *)
Lemma cycles_from_close (f : nat) (succ : cell -> list cell)
  (allowed : list cell) (s : cell) (path : list cell) (cur : cell) :
  s ∈ succ cur -> path ∈ cycles_from (S f) succ allowed s path cur.
Proof.
  intros Hs. cbn [cycles_from]. apply list_elem_of_In, in_flat_map.
  exists s. split; [by apply list_elem_of_In|].
  replace (cell_eqb s s) with true by (symmetry; by apply cell_eqb_eq).
  by left.
Qed.

(** An edge to a fresh allowed node extends the path. *)
Lemma cycles_from_extend (f : nat) (succ : cell -> list cell)
  (allowed : list cell) (s : cell) (path : list cell) (cur nb : cell)
  (c : list cell) :
  nb ∈ succ cur -> nb <> s -> nb ∈ allowed -> nb ∉ path ->
  c ∈ cycles_from f succ allowed s (path ++ [nb]) nb ->
  c ∈ cycles_from (S f) succ allowed s path cur.
Proof.
  intros Hnb Hne Hal Hfresh Hc. cbn [cycles_from].
  apply list_elem_of_In, in_flat_map.
  exists nb. split; [by apply list_elem_of_In|].
  destruct (cell_eqb nb s) eqn:E1; [by apply cell_eqb_eq in E1|].
  replace (cell_in nb allowed) with true by (symmetry; by apply cell_in_elem).
  destruct (cell_in nb path) eqn:E2; [by apply cell_in_elem in E2|].
  by apply list_elem_of_In.
Qed.

(** The enumeration contains the two-cell cycle that goes from (0, 0) to
    (0, 1) and straight back. *)
Lemma simple_cycles_digon (width height : Z) :
  1 <= width -> 2 <= height ->
  [(0, 0); (0, 1)] ∈ simple_cycles (grid_graph width height).
Proof.
  intros Hw Hh. unfold simple_cycles, grid_graph; cbn [graph_nodes graph_succ].
  destruct (grid_nodes_head width height Hw Hh) as [rest ->].
  cbn [length cycles_of]. apply elem_of_app. left.
  apply (cycles_from_extend _ _ _ _ [(0, 0)] _ (0, 1)).
  - apply grid_succ_elem. split; [simpl; tauto|].
    apply in_grid_spec. simpl. lia.
  - discriminate.
  - by left.
  - by intros [= ]%list_elem_of_singleton.
  - apply cycles_from_close.
    apply grid_succ_elem. split; [simpl; tauto|].
    apply in_grid_spec. simpl. lia.
Qed.

(** Every element of a sequence is the outcome of [choice] for some state
    of the generator. *)
Lemma choice_any {A} (l : list A) (a : A) :
  a ∈ l -> exists t, choice l (mkRandom t 0) = Ok (a, mkRandom t 1).
Proof.
  intros Ha. apply list_elem_of_lookup_1 in Ha as [i Hi].
  pose proof (lookup_lt_Some _ _ _ Hi) as Hlt.
  exists (fun _ => N.of_nat i). unfold choice.
  destruct l as [|x l]; [simpl in Hlt; lia|].
  unfold randbelow, next_word. cbn [tape cursor].
  rewrite nat_N_Z, Z.mod_small by lia.
  rewrite py_get_nonneg by lia. rewrite Nat2Z.id, Hi. done.
Qed.

(* ===================================================================== *)
(** * The assembler *)
(* ===================================================================== *)

Lemma make_objects_total (positions : list (float * float)) (r : Random) :
  exists objs r', make_objects positions r = Ok (objs, r').
Proof.
  revert r. induction positions as [|x rest IH]; intros r.
  - simpl. eauto.
  - cbn [make_objects]. unfold randrange.
    replace (0 <? 360 - 0) with true by reflexivity.
    destruct (randbelow (360 - 0) r) as [k r1]. cbn [rbind].
    destruct (IH r1) as (objs & r2 & ->). cbn [rbind]. eauto.
Qed.

(** Once the cycle is drawn and the tile map is built, nothing in the rest
    of [gen_map] can raise, and the tile map is the map's tile grid. *)
Lemma gen_map_of_choice {L : Libm} (width height : Z) (rand r1 : Random)
  (loops : list (list cell)) (edges : list cell) (g : list (list conn))
  (t : tiling) :
  all_loops width height = Ok loops ->
  choice loops rand = Ok (edges, r1) ->
  edges <> [] ->
  edge_path_to_grid width height edges = Ok g ->
  graph_transform width height g = Ok t ->
  exists res,
    gen_map width height rand = Ok res /\
    tile_size (map_dict res) = TILE_SIZE /\
    tiles (map_dict res) = tile_map t /\
    reports res = unknown t.
Proof.
  intros Hl Hc Hne Hg Ht. unfold gen_map.
  rewrite Hl. cbn [rbind].
  rewrite Hc. cbn [rbind]. rewrite Hg. cbn [rbind]. rewrite Ht. cbn [rbind].
  unfold object_placement.
  destruct (place_spec (float_of_int 10 * float_of_int 10)%float edges Hne
              (Z.to_nat 5) [] r1 (checked_nil _)) as (ducks & r2 & -> & _).
  cbn [rbind].
  destruct (make_objects_total ducks r2) as (objs & r3 & ->). cbn [rbind].
  eexists. split; [reflexivity|]. done.
Qed.

(** C2: the cycle that [gen_map] draws from [all_loops] need not have four
    cells.  On the default 5 x 5 grid some state of the generator selects
    the two-cell cycle (0, 0), (0, 1), which is not a valid Cycle; the map
    is then built from it and both cells are reported as unknown tiles. *)
Theorem gen_map_selects_two_cell_cycle :
  exists (t : nat -> N) (loops : list (list cell)) (edges : list cell)
         (r1 : Random),
    all_loops 5 5 = Ok loops /\
    choice loops (mkRandom t 0) = Ok (edges, r1) /\
    edges = [(0, 0); (0, 1)] /\
    length edges = 2%nat /\
    is_valid_cycle 5 5 edges = false /\
    forall L : Libm, exists res : generated,
      gen_map 5 5 (mkRandom t 0) = Ok res /\
      reports res = [(0, 0); (0, 1)].
Proof.
  destruct (choice_any (simple_cycles (grid_graph 5 5)) [(0, 0); (0, 1)]) as [t Ht].
  { apply simple_cycles_digon; lia. }
  exists t, (simple_cycles (grid_graph 5 5)), [(0, 0); (0, 1)], (mkRandom t 1).
  split; [by apply all_loops_Ok|]. split; [exact Ht|].
  do 3 (split; [reflexivity|]). intros L.
  destruct (gen_map_of_choice 5 5 (mkRandom t 0) (mkRandom t 1)
              (simple_cycles (grid_graph 5 5)) [(0, 0); (0, 1)]
              [[(false, false, true, false); no_conn; no_conn; no_conn; no_conn];
               [(true, false, false, false); no_conn; no_conn; no_conn; no_conn];
               [no_conn; no_conn; no_conn; no_conn; no_conn];
               [no_conn; no_conn; no_conn; no_conn; no_conn];
               [no_conn; no_conn; no_conn; no_conn; no_conn]]
              (mkTiling
                 [[EmptyString; "grass"; "grass"; "grass"; "grass"];
                  [EmptyString; "grass"; "grass"; "grass"; "grass"];
                  ["grass"; "grass"; "grass"; "grass"; "grass"];
                  ["grass"; "grass"; "grass"; "grass"; "grass"];
                  ["grass"; "grass"; "grass"; "grass"; "grass"]]%string
                 [(0, 0); (0, 1)]))
    as (res & Hres & _ & _ & Hrep);
    [by apply all_loops_Ok | exact Ht | discriminate | reflexivity.. |].
  exists res. split; [exact Hres | exact Hrep].
Qed.

(** The same on the smallest grid that has the two cells, run on a
    concrete tape. *)
Example gen_map_two_cell_cycle_run :
  match gen_map (L := rounded_square) 1 2 (mkRandom tape_a 0) with
  | Ok res => Some (tiles (map_dict res), reports res)
  | Err _ => None
  end = Some ([[EmptyString]; [EmptyString]], [(0, 0); (0, 1)]).
Proof. vm_compute. reflexivity. Qed.

(** The enumeration of the default grid also contains the unit square. *)
Lemma simple_cycles_square :
  [(0, 0); (1, 0); (1, 1); (0, 1)] ∈ simple_cycles (grid_graph 5 5).
Proof.
  unfold simple_cycles, grid_graph; cbn [graph_nodes graph_succ].
  let nodes := eval vm_compute in (grid_nodes 5 5) in
  change (grid_nodes 5 5) with nodes.
  cbn [length cycles_of]. apply elem_of_app. left.
  assert (Hsucc : forall c d : cell,
            in_grid 5 5 d = true ->
            (d = (fst c + 1, snd c) \/ d = (fst c - 1, snd c) \/
             d = (fst c, snd c + 1) \/ d = (fst c, snd c - 1)) ->
            d ∈ grid_succ 5 5 c).
  { intros c d Hd Hc. by apply grid_succ_elem. }
  apply (cycles_from_extend _ _ _ _ [(0, 0)] _ (1, 0));
    [apply Hsucc; [reflexivity | simpl; tauto] | discriminate
    | apply cell_in_elem; reflexivity
    | intros H; apply cell_in_elem in H; discriminate |].
  apply (cycles_from_extend _ _ _ _ [(0, 0); (1, 0)] _ (1, 1));
    [apply Hsucc; [reflexivity | simpl; tauto] | discriminate
    | apply cell_in_elem; reflexivity
    | intros H; apply cell_in_elem in H; discriminate |].
  apply (cycles_from_extend _ _ _ _ [(0, 0); (1, 0); (1, 1)] _ (0, 1));
    [apply Hsucc; [reflexivity | simpl; tauto] | discriminate
    | apply cell_in_elem; reflexivity
    | intros H; apply cell_in_elem in H; discriminate |].
  apply cycles_from_close. apply Hsucc; [reflexivity | simpl; tauto].
Qed.

(** C1: the seed given on the command line plays no part in a run: the
    generator is seeded by the operating system, so for the default grid
    and any seed two runs can return maps with different tile grids. *)
Theorem run_ignores_seed :
  forall (L : Libm) (args : Args),
    width args = 5 -> height args = 5 ->
    exists (e1 e2 : nat -> N) (g1 g2 : generated),
      run args e1 = Ok g1 /\ run args e2 = Ok g2 /\
      tiles (map_dict g1) <> tiles (map_dict g2) /\
      map_dict g1 <> map_dict g2.
Proof.
  intros L args Hw Hh. unfold run. rewrite Hw, Hh.
  destruct (choice_any (simple_cycles (grid_graph 5 5)) _ simple_cycles_square) as [e1 H1].
  destruct (choice_any (simple_cycles (grid_graph 5 5)) [(0, 0); (0, 1)]) as [e2 H2].
  { apply simple_cycles_digon; lia. }
  edestruct (gen_map_of_choice 5 5 (mkRandom e1 0)) as (g1 & Hg1 & _ & Ht1 & _);
    [by apply all_loops_Ok | exact H1 | discriminate | vm_compute; reflexivity
    | vm_compute; reflexivity |].
  edestruct (gen_map_of_choice 5 5 (mkRandom e2 0)) as (g2 & Hg2 & _ & Ht2 & _);
    [by apply all_loops_Ok | exact H2 | discriminate | vm_compute; reflexivity
    | vm_compute; reflexivity |].
  exists e1, e2, g1, g2. split; [done|]. split; [done|].
  assert (Hne : tiles (map_dict g1) <> tiles (map_dict g2)).
  { rewrite Ht1, Ht2. discriminate. }
  split; [done|]. intros Heq. apply Hne. by rewrite Heq.
Qed.

Lemma run_ignores_seed_witness :
  exists (e1 e2 : nat -> N) (g1 g2 : generated),
    run (L := rounded_square)
      (mkArgs false 5 5 (Some "1"%string) "generated.yaml") e1 = Ok g1 /\
    run (L := rounded_square)
      (mkArgs false 5 5 (Some "1"%string) "generated.yaml") e2 = Ok g2 /\
    tiles (map_dict g1) <> tiles (map_dict g2) /\
    map_dict g1 <> map_dict g2.
Proof.
  apply (run_ignores_seed rounded_square
           (mkArgs false 5 5 (Some "1"%string) "generated.yaml"));
    reflexivity.
Defined.

(** C8, as the claim states it, fails: no object count is checked
    anywhere.  A zero or a negative count is accepted by
    [object_placement], which draws nothing, raises nothing and returns
    the empty list. *)
Lemma object_placement_accepts_zero_count :
  object_placement (L := rounded_square) 0 (float_of_int 10)
    [(0, 0); (1, 0); (1, 1); (0, 1)] (mkRandom tape_a 0)
  = Ok ([], mkRandom tape_a 0) /\
  object_placement (L := rounded_square) (-1) (float_of_int 10)
    [(0, 0); (1, 0); (1, 1); (0, 1)] (mkRandom tape_a 0)
  = Ok ([], mkRandom tape_a 0).
Proof. split; reflexivity. Qed.

(** C8, as the code has it: there is no configuration check.  For a
    negative width or height [nx.grid_2d_graph] raises NetworkXError
    inside [all_loops]; on a grid without two adjacent cells and of no
    negative size the enumeration is empty and [gen_map] stops at its
    first statement with the IndexError of [rand.choice]; a zero or
    negative object count raises nothing and places nothing. *)
Theorem gen_map_degenerate_grid :
  forall (L : Libm) (width height : Z) (rand : Random)
         (n : Z) (D : float) (possible_tiles : list cell),
    width <= 0 \/ height <= 0 \/ (width = 1 /\ height = 1) ->
    n <= 0 ->
    all_loops width height
    = (if (width <? 0) || (height <? 0) then Err NetworkXError else Ok []) /\
    gen_map width height rand
    = Err (if (width <? 0) || (height <? 0) then NetworkXError
           else IndexError) /\
    object_placement n D possible_tiles rand = Ok ([], rand).
Proof.
  intros L width height rand n D tiles Hgrid Hn.
  assert (Hloops : all_loops width height
                   = if (width <? 0) || (height <? 0)
                     then Err NetworkXError else Ok []).
  { destruct ((width <? 0) || (height <? 0)) eqn:E.
    - apply all_loops_negative.
      apply orb_true_iff in E as [E|E]; apply Z.ltb_lt in E; tauto.
    - apply orb_false_iff in E as [Hw Hh]. apply Z.ltb_ge in Hw, Hh.
      rewrite all_loops_Ok by done. by rewrite simple_cycles_degenerate. }
  split; [done|]. split.
  - unfold gen_map. rewrite Hloops.
    by destruct ((width <? 0) || (height <? 0)).
  - unfold object_placement. by replace (Z.to_nat n) with 0%nat by lia.
Qed.

Lemma gen_map_degenerate_grid_witness :
  all_loops 1 1 = Ok [] /\
  gen_map (L := rounded_square) 1 1 (mkRandom tape_a 0) = Err IndexError /\
  object_placement (L := rounded_square) 0 (float_of_int 10) [(0, 0)]
    (mkRandom tape_a 0)
  = Ok ([], mkRandom tape_a 0).
Proof.
  apply (gen_map_degenerate_grid rounded_square 1 1 (mkRandom tape_a 0) 0
           (float_of_int 10) [(0, 0)]);
    [right; right; split; reflexivity | lia].
Defined.

(** The same for a negative size, run on a concrete tape. *)
Example gen_map_negative_size_run :
  gen_map (L := rounded_square) (-1) 5 (mkRandom tape_a 0)
  = Err NetworkXError.
Proof. reflexivity. Qed.

(* ===================================================================== *)
(** * What the enumeration does guarantee *)
(* ===================================================================== *)

Lemma cell_at_app_l (l : list cell) (c : cell) (i : Z) :
  0 <= i < Z.of_nat (length l) -> cell_at (l ++ [c]) i = cell_at l i.
Proof. intros H. unfold cell_at. apply app_nth1. lia. Qed.

Lemma cell_at_app_last (l : list cell) (c : cell) :
  cell_at (l ++ [c]) (Z.of_nat (length l)) = c.
Proof.
  unfold cell_at. rewrite Nat2Z.id, app_nth2 by lia.
  by rewrite Nat.sub_diag.
Qed.

Lemma grid_succ_adjacent (width height : Z) (c d : cell) :
  d ∈ grid_succ width height c ->
  adjacentb c d = true /\ in_grid width height d = true.
Proof.
  intros H. apply grid_succ_elem in H as [Hd Hin]. split; [|done].
  destruct c as [x y]. unfold adjacentb. apply Z.eqb_eq.
  destruct Hd as [-> | [-> | [-> | ->]]]; simpl; lia.
Qed.

(** Every list produced by the path extension is a simple closed walk of
    the grid with at least two cells. *)
Lemma cycles_from_sound (width height : Z) (fuel : nat)
  (allowed : list cell) (s : cell) :
  forall (path : list cell) (cur : cell) (c : list cell),
    0 < Z.of_nat (length path) ->
    cell_at path 0 = s ->
    cell_at path (Z.of_nat (length path) - 1) = cur ->
    NoDup path ->
    Forall (fun d => in_grid width height d = true) path ->
    chain path ->
    c ∈ cycles_from fuel (grid_succ width height) allowed s path cur ->
    2 <= Z.of_nat (length c) /\ NoDup c /\
    Forall (fun d => in_grid width height d = true) c /\
    chain c /\
    adjacentb (cell_at c (Z.of_nat (length c) - 1)) (cell_at c 0) = true.
Proof.
  induction fuel as [|f IH]; intros path cur c Hlen Hs Hcur Hnd Hin Hch Hc.
  - by apply elem_of_nil in Hc.
  - cbn [cycles_from] in Hc.
    apply list_elem_of_In, in_flat_map in Hc as (nb & Hnb & Hc).
    apply list_elem_of_In, grid_succ_adjacent in Hnb as [Hadj Hnbin].
    destruct (cell_eqb nb s) eqn:E1.
    + apply cell_eqb_eq in E1 as ->.
      destruct Hc as [<-|[]].
      split; [|by rewrite Hs, Hcur].
      destruct (Z.eq_dec (Z.of_nat (length path)) 1) as [E|E]; [|lia].
      rewrite E in Hcur. change (1 - 1) with 0 in Hcur.
      rewrite Hs in Hcur. subst cur.
      destruct s as [x y]. unfold adjacentb in Hadj.
      apply Z.eqb_eq in Hadj. simpl in Hadj. lia.
    + destruct (cell_in nb allowed && negb (cell_in nb path)) eqn:E2;
        [|by destruct Hc].
      apply andb_prop in E2 as [_ E2]. apply negb_true_iff in E2.
      assert (Hfresh : nb ∉ path).
      { intros H. apply cell_in_elem in H. congruence. }
      apply list_elem_of_In in Hc.
      apply (IH (path ++ [nb]) nb c); [| | | | | |exact Hc].
      * rewrite length_app. simpl. lia.
      * rewrite cell_at_app_l by lia. done.
      * rewrite length_app. simpl.
        replace (Z.of_nat (length path + 1) - 1) with (Z.of_nat (length path))
          by lia.
        apply cell_at_app_last.
      * apply NoDup_app. split; [done|]. split; [|apply NoDup_singleton].
        intros d Hd Hd'. apply list_elem_of_singleton in Hd'. by subst d.
      * apply Forall_app. split; [done|]. by apply Forall_singleton.
      * intros i Hi0 Hi. rewrite length_app in Hi. simpl in Hi.
        rewrite (cell_at_app_l path nb i) by lia.
        destruct (Z.eq_dec (i + 1) (Z.of_nat (length path))) as [E|E].
        -- rewrite E, cell_at_app_last.
           replace i with (Z.of_nat (length path) - 1) by lia.
           by rewrite Hcur.
        -- rewrite cell_at_app_l by lia. apply Hch; lia.
Qed.

Lemma grid_nodes_in_grid (width height : Z) :
  Forall (fun d => in_grid width height d = true) (grid_nodes width height).
Proof.
  apply Forall_forall. intros c Hc. unfold grid_nodes in Hc.
  apply list_elem_of_In, in_flat_map in Hc as (i & Hi & Hc).
  apply in_map_iff in Hc as (j & <- & Hj).
  apply list_elem_of_In, range_elem in Hi, Hj.
  apply in_grid_spec. simpl. lia.
Qed.

(** Every cycle of the enumeration has no repeated cell, is cyclically
    4-adjacent, lies within the grid and has at least two cells; the bound
    of four cells is the one that fails. *)
Lemma simple_cycles_sound (width height : Z) (c : list cell) :
  c ∈ simple_cycles (grid_graph width height) ->
  2 <= Z.of_nat (length c) /\
  nodupb c = true /\ cyclic_adjacentb c = true /\
  forallb (in_grid width height) c = true.
Proof.
  unfold simple_cycles, grid_graph; cbn [graph_nodes graph_succ].
  generalize (length (grid_nodes width height)) as fuel.
  pose proof (grid_nodes_in_grid width height) as Hnodes.
  revert Hnodes. generalize (grid_nodes width height) as nodes.
  intros nodes Hnodes fuel Hc.
  assert (Hok : 2 <= Z.of_nat (length c) /\ NoDup c /\
                Forall (fun d => in_grid width height d = true) c /\
                chain c /\
                adjacentb (cell_at c (Z.of_nat (length c) - 1)) (cell_at c 0)
                = true).
  { induction nodes as [|s rest IH]; [by apply elem_of_nil in Hc|].
    apply Forall_cons in Hnodes as [Hs Hrest].
    cbn [cycles_of] in Hc. apply elem_of_app in Hc as [Hc|Hc]; [|by apply IH].
    eapply (cycles_from_sound width height fuel rest s [s] s);
      [simpl; lia | done | done | apply NoDup_singleton
      | by apply Forall_singleton | | exact Hc].
    intros i Hi0 Hi. simpl in Hi. lia. }
  destruct Hok as (Hlen & Hnd & Hin & Hch & Hclose).
  split; [done|]. split; [by apply nodupb_NoDup|]. split.
  - unfold cyclic_adjacentb. apply forallb_forall. intros i Hi.
    apply list_elem_of_In, range_elem in Hi.
    destruct (succ_mod i _ Hi) as [[E ->]|[E ->]].
    + by replace i with (Z.of_nat (length c) - 1) by lia.
    + apply Hch; lia.
  - apply forallb_forall. intros d Hd. rewrite Forall_forall in Hin.
    by apply Hin, list_elem_of_In.
Qed.

Lemma all_loops_sound (width height : Z) (loops : list (list cell))
  (c : list cell) :
  all_loops width height = Ok loops ->
  c ∈ loops ->
  2 <= Z.of_nat (length c) /\
  nodupb c = true /\ cyclic_adjacentb c = true /\
  forallb (in_grid width height) c = true.
Proof.
  intros (_ & _ & ->)%all_loops_inv. apply simple_cycles_sound.
Qed.

(** The command-line seed is not consulted by a run. *)
Remark run_seed_unused {L : Libm} (f : bool) (w h : Z)
  (s1 s2 : option string) (name : string) (os_entropy : nat -> N) :
  run (mkArgs f w h s1 name) os_entropy = run (mkArgs f w h s2 name) os_entropy.
Proof. reflexivity. Qed.

(* ===================================================================== *)
(** * The tile classifier, cell by cell *)
(* ===================================================================== *)





















(* ===================================================================== *)
(** * The fully connected grid *)
(* ===================================================================== *)











(** The fully connected 3 x 3 grid, classified. *)
Example graph_transform_full_3_3 :
  graph_transform 3 3 (full 3 3)
  = Ok (mkTiling
          [["curve_left/W"; "3way_left/W"; "curve_left/N"];
           ["3way_left/S"; EmptyString; "3way_left/N"];
           ["curve_left/S"; "3way_left/E"; "curve_left/E"]]%string
          [(1, 1)]).
Proof. reflexivity. Qed.

(* ===================================================================== *)
(** * The assembler, end to end *)
(* ===================================================================== *)




(** What every cycle of the enumeration is, in propositional form. *)
Lemma simple_cycles_cycle (width height : Z) (edges : list cell) :
  edges ∈ simple_cycles (grid_graph width height) ->
  2 <= Z.of_nat (length edges) /\ NoDup edges /\
  Forall (fun c => in_grid width height c = true) edges /\
  (forall i, 0 <= i < Z.of_nat (length edges) ->
     adjacentb (cell_at edges i)
               (cell_at edges ((i + 1) mod Z.of_nat (length edges))) = true).
Proof.
  intros H. apply simple_cycles_sound in H as (Hlen & Hnd & Hadj & Hin).
  split; [done|]. split; [by apply nodupb_NoDup|]. split.
  - apply Forall_forall. intros c Hc. rewrite forallb_forall in Hin.
    by apply Hin, list_elem_of_In.
  - intros i Hi. unfold cyclic_adjacentb in Hadj.
    rewrite forallb_forall in Hadj. apply Hadj, list_elem_of_In, range_elem, Hi.
Qed.





(** With a positive count an empty list of eligible cells makes
    [rand.choice] raise. *)
Lemma object_placement_nonempty_tiles {L : Libm} (D : float)
  (tiles : list cell) (r r' : Random) (ducks : list (float * float)) :
  object_placement 5 D tiles r = Ok (ducks, r') -> tiles <> [].
Proof.
  intros H ->. unfold object_placement in H.
  change (Z.to_nat 5) with 5%nat in H. cbn [place] in H.
  change MAX_TRIES with (S 49) in H. cbn [attempts] in H.
  unfold candidate in H. destruct (random r) as [u r1].
  destruct (random r1) as [v r2]. discriminate.
Qed.




(* ===================================================================== *)
(** * The cycles the assembler can draw *)
(* ===================================================================== *)



(** A neighbour sets at least one flag. *)
Lemma flags_some (x y : Z) (p s : cell) :
  adjacentb (x, y) s = true -> flags x y [p; s] <> no_conn.
Proof.
  intros Hs Heq.
  assert (Hc : cell_in s [p; s] = true).
  { apply cell_in_elem. right. by left. }
  apply adjacentb_cases in Hs. unfold flags, no_conn in Heq.
  destruct Hs as [-> | [-> | [-> | ->]]];
    injection Heq; intros; congruence.
Qed.


Lemma classify_grass (r : conn) :
  classify r = Some "grass"%string -> r = no_conn.
Proof. destruct r as [[[[] []] []] []]; vm_compute; congruence. Qed.

Lemma tile_of_grass (r : conn) : tile_of r = "grass"%string -> r = no_conn.
Proof.
  unfold tile_of. destruct (classify r) as [name|] eqn:E; [|discriminate].
  intros ->. by apply classify_grass.
Qed.

Section drawn.

Variable width height : Z.
Variable edges : list cell.

Hypothesis enumerated : edges ∈ simple_cycles (grid_graph width height).




(** The successor is a neighbour, so no cell of the cycle is left without
    a flag. *)
Lemma drawn_flags (i : Z) :
  0 <= i < Z.of_nat (length edges) -> flags_of edges i <> no_conn.
Proof.
  intros Hi.
  destruct (simple_cycles_cycle _ _ _ enumerated) as (_ & _ & _ & Hadj).
  specialize (Hadj i Hi). unfold flags_of.
  destruct (cell_at edges i) as [x y]. by apply flags_some.
Qed.

End drawn.




(* ===================================================================== *)
(** * The boolean-map classifier *)
(* ===================================================================== *)

Section bool_map.

Variable width height : Z.
Variable bool_map : list (list bool).

Hypothesis bool_map_dims : grid_dims width height bool_map.









End bool_map.









(** The same map, classified. *)
Example map_transform_square :
  map_transform 3 2 [[true; true; false]; [true; true; false]]
  = Ok (mkTiling [["curve_left/W"; "curve_left/N"; "grass"];
                  ["curve_left/S"; "curve_left/E"; "grass"]]%string []).
Proof. reflexivity. Qed.






(* ===================================================================== *)
(** * The connectivity mapper on arbitrary cell lists *)
(* ===================================================================== *)




Section indexed.

Variable width height : Z.
Variable edges : list cell.



End indexed.



(** A cell with a negative coordinate is written to the opposite border
    of the grid. *)
Example edge_path_to_grid_wraps :
  edge_path_to_grid 3 2 [(-1, 0); (0, 0); (0, 1); (-1, -1)]
  = Ok [[(false, false, true, true); no_conn; (true, true, false, false)];
        [(true, false, false, false); no_conn; (false, false, true, false)]].
Proof. reflexivity. Qed.


